(** * Transactions backend (src/app.js): data model, queries and handlers

    The backend is an Express application with six GET routes over one
    collection of transactions.  Each handler is embedded as a computation
    in a small state-and-exception monad over a [World] that holds the
    stored documents, the remote JSON resource, the outcomes the database
    driver is about to give and a log of the driver calls issued.

    Numbers are rationals (every finite double is one), timestamps are
    milliseconds since the epoch, and [new Date(s)] on a string that the
    engine cannot parse is the Invalid Date, written [None]. *)

From Stdlib Require Import List String Ascii ZArith QArith Bool Lia Lqa.
Import ListNotations.

Local Open Scope string_scope.
Local Open Scope list_scope.

(** ** Data model *)

(** Modelled from the spec: the schema in ./models/Transaction is not part
    of the sources; the spec gives one entity with the fields title (text),
    description (text), price (numeric), dateOfSale (timestamp), category
    (text) and sold (boolean).  The identifier the database assigns to a
    document is left out. *)
Record Transaction : Type := mkTransaction {
  title : string;
  description : string;
  price : Q;
  dateOfSale : Z;
  category : string;
  sold : bool
}.

(** An element of the remote JSON array read by /seed: the date is still
    the text found in the JSON. *)
Record Item : Type := mkItem {
  item_title : string;
  item_description : string;
  item_price : Q;
  item_dateOfSale : string;
  item_category : string;
  item_sold : bool
}.

(** A JS Date: [Some t] is the time value [t], [None] the Invalid Date. *)
Definition JsDate : Type := option Z.

(** The upper limit of the last bar-chart range: a number or [Infinity]. *)
Inductive JsNum : Type :=
| Fin (q : Q)
| Infinity.

(** [Number.MAX_VALUE], (2^53 - 1) * 2^971. *)
Definition MAX_VALUE : Q := inject_Z ((2 ^ 53 - 1) * 2 ^ 971).

(** A template literal [`${x}`] on a query parameter that may be absent. *)
Definition template (x : option string) : string :=
  match x with
  | Some s => s
  | None => "undefined"
  end.

(** ** Dates in the ISO format

    [Date_parse_iso] reads the date-time string format of the language
    standard: the dates YYYY, YYYY-MM and YYYY-MM-DD, read as UTC, and a
    date followed by THH:mm, THH:mm:ss or THH:mm:ss.sss and a time zone (Z
    or an offset +HH:mm or -HH:mm).  A day number up to
    31 is accepted for every month and carried over into the next month,
    as the engine under Node does.  Other strings are left unparsed here,
    so the handlers below take the parser as a parameter and this one
    serves the concrete runs. *)
Module IsoDate.

Definition digit (c : ascii) : option Z :=
  let n := Z.of_nat (nat_of_ascii c) in
  if ((48 <=? n) && (n <=? 57))%Z then Some (n - 48)%Z else None.

Fixpoint number_from (acc : Z) (cs : list ascii) : option Z :=
  match cs with
  | [] => Some acc
  | c :: rest =>
      match digit c with
      | Some d => number_from (10 * acc + d)%Z rest
      | None => None
      end
  end.

Definition number (cs : list ascii) : option Z :=
  match cs with
  | [] => None
  | _ => number_from 0%Z cs
  end.

(** Day number of the first of month [m] (1 to 12) of year [y], counted
    from 1970-01-01. *)
Definition day_of_month_start (y m : Z) : Z :=
  let y' := if (m <=? 2)%Z then (y - 1)%Z else y in
  let era := (y' / 400)%Z in
  let yoe := (y' - era * 400)%Z in
  let mp := if (m <=? 2)%Z then (m + 9)%Z else (m - 3)%Z in
  let doy := ((153 * mp + 2) / 5)%Z in
  let doe := (yoe * 365 + yoe / 4 - yoe / 100 + doy)%Z in
  (era * 146097 + doe - 719468)%Z.

Definition ms_per_day : Z := 86400000.

Definition make_date (y m d : Z) : JsDate :=
  if ((1 <=? m) && (m <=? 12) && (1 <=? d) && (d <=? 31))%Z
  then Some ((day_of_month_start y m + d - 1) * ms_per_day)%Z
  else None.

Definition parse_date (cs : list ascii) : JsDate :=
  match cs with
  | [y1; y2; y3; y4] =>
      match number [y1; y2; y3; y4] with
      | Some y => make_date y 1 1
      | None => None
      end
  | [y1; y2; y3; y4; "-"; m1; m2]%char =>
      match number [y1; y2; y3; y4], number [m1; m2] with
      | Some y, Some m => make_date y m 1
      | _, _ => None
      end
  | [y1; y2; y3; y4; "-"; m1; m2; "-"; d1; d2]%char =>
      match number [y1; y2; y3; y4], number [m1; m2], number [d1; d2] with
      | Some y, Some m, Some d => make_date y m d
      | _, _, _ => None
      end
  | _ => None
  end.

(** The offset of a time zone from UTC, in milliseconds: [Z] or +HH:mm or
    -HH:mm. *)
Definition parse_zone (cs : list ascii) : option Z :=
  match cs with
  | ["Z"]%char => Some 0%Z
  | [sg; h1; h2; ":"; m1; m2]%char =>
      match number [h1; h2], number [m1; m2] with
      | Some h, Some mi =>
          if ((h <=? 23) && (mi <=? 59))%Z
          then if Ascii.eqb sg "+" then Some ((h * 60 + mi) * 60000)%Z
               else if Ascii.eqb sg "-" then Some (- ((h * 60 + mi) * 60000))%Z
               else None
          else None
      | _, _ => None
      end
  | _ => None
  end.

Definition parse_seconds (cs : list ascii) : option Z :=
  match cs with
  | s1 :: s2 :: "."%char :: f1 :: f2 :: f3 :: zone =>
      match number [s1; s2], number [f1; f2; f3], parse_zone zone with
      | Some s, Some ms, Some z =>
          if (s <=? 59)%Z then Some (s * 1000 + ms - z)%Z else None
      | _, _, _ => None
      end
  | s1 :: s2 :: zone =>
      match number [s1; s2], parse_zone zone with
      | Some s, Some z => if (s <=? 59)%Z then Some (s * 1000 - z)%Z else None
      | _, _ => None
      end
  | _ => None
  end.

(** Milliseconds since the start of the UTC day, for HH:mm, HH:mm:ss or
    HH:mm:ss.sss followed by a time zone. *)
Definition parse_time (cs : list ascii) : option Z :=
  match cs with
  | h1 :: h2 :: ":"%char :: m1 :: m2 :: rest =>
      match number [h1; h2], number [m1; m2] with
      | Some h, Some mi =>
          if ((h <=? 23) && (mi <=? 59))%Z
          then
            match rest with
            | ":"%char :: seconds =>
                option_map (fun t => ((h * 60 + mi) * 60000 + t)%Z)
                  (parse_seconds seconds)
            | zone =>
                option_map (fun z => ((h * 60 + mi) * 60000 - z)%Z)
                  (parse_zone zone)
            end
          else None
      | _, _ => None
      end
  | _ => None
  end.

(** Splits at the first [T]. *)
Fixpoint split_T (cs : list ascii) : list ascii * option (list ascii) :=
  match cs with
  | [] => ([], None)
  | c :: rest =>
      if Ascii.eqb c "T" then ([], Some rest)
      else let (d, t) := split_T rest in (c :: d, t)
  end.

Definition Date_parse_iso (s : string) : JsDate :=
  let (d, t) := split_T (list_ascii_of_string s) in
  match parse_date d, t with
  | Some day, None => Some day
  | Some day, Some tcs =>
      match parse_time tcs with
      | Some ms => Some (day + ms)%Z
      | None => None
      end
  | None, _ => None
  end.

End IsoDate.

(** ** Regular expressions on literal patterns

    A pattern without metacharacters matches the subjects that contain it;
    with the option [i] letter case is ignored.  The handlers take the
    engine as a parameter; this one serves the concrete runs. *)
Module LiteralRegExp.

Definition lower (c : ascii) : ascii :=
  let n := nat_of_ascii c in
  if ((65 <=? n) && (n <=? 90))%nat then ascii_of_nat (n + 32) else c.

Fixpoint lowercase (s : string) : string :=
  match s with
  | EmptyString => EmptyString
  | String c rest => String (lower c) (lowercase rest)
  end.

Fixpoint contains (pattern subject : string) : bool :=
  String.prefix pattern subject ||
  match subject with
  | EmptyString => false
  | String _ rest => contains pattern rest
  end.

Fixpoint has_flag (flag : ascii) (options : string) : bool :=
  match options with
  | EmptyString => false
  | String c rest => Ascii.eqb c flag || has_flag flag rest
  end.

Definition RegExp (pattern options : string) : option (string -> bool) :=
  if has_flag "i" options
  then Some (fun subject => contains (lowercase pattern) (lowercase subject))
  else Some (contains pattern).

End LiteralRegExp.

(** ** Exceptions, responses and the world *)

Record Exn : Type := mkExn {
  name : string;
  message : string
}.

Definition CastError (what : string) : Exn :=
  mkExn "CastError" ("Cast to " ++ what ++ " failed")%string.

(** The exceptions of the database library that the handlers can meet and
    whose content the sources do not give: the refusal to save a document
    whose date is invalid, the reply to a query with a negative skip and
    the reply to a pattern that is not a regular expression. *)
Record Library : Type := mkLibrary {
  ValidationError : Exn;
  negative_skip : Exn;
  invalid_pattern : Exn
}.

(** *** Filters *)

Inductive Field : Type :=
| f_title | f_description | f_price | f_dateOfSale | f_category | f_sold.

(** Modelled from the spec: the types that the schema in
    ./models/Transaction, which is not part of the sources, gives to the
    paths: text, numeric, timestamp and boolean as in the data model of the
    spec. *)
Inductive SchemaType : Type :=
| T_String | T_Number | T_Date | T_Boolean.

Definition schema (f : Field) : SchemaType :=
  match f with
  | f_title | f_description | f_category => T_String
  | f_price => T_Number
  | f_dateOfSale => T_Date
  | f_sold => T_Boolean
  end.

Inductive Value : Type :=
| V_string (s : string)
| V_number (q : Q)
| V_date (d : JsDate)
| V_bool (b : bool).

Inductive Operator : Type :=
| op_gte (v : Value)                      (* $gte: v *)
| op_lt (v : Value)                       (* $lt: v *)
| op_regex (pattern options : string).    (* $regex: pattern, $options: options *)

Inductive Condition : Type :=
| Operators (ops : list Operator)         (* path: { $gte: a, $lt: b } *)
| Literal (v : Value).                    (* path: v *)

(** An entry of a filter object; a filter is the list of its entries, all
    of which a document has to satisfy. *)
#[warnings="-register-all"]
Inductive Entry : Type :=
| E_path (f : Field) (c : Condition)
| E_or (alternatives : list (list Entry)).  (* $or: [ {...}, {...} ] *)

Definition Filter : Type := list Entry.

Inductive GroupId : Type :=
| id_null                                 (* _id: null *)
| id_path (f : Field).                    (* _id: '$path' *)

Inductive Accumulator : Type :=
| sum_path (f : Field)                    (* { $sum: '$path' } *)
| sum_const (q : Q).                      (* { $sum: q } *)

(** A document produced by a [$group] stage. *)
Record Group : Type := mkGroup {
  _id : option Value;
  acc : Q
}.

(** A document about to be saved: the date may still be invalid. *)
Record Draft : Type := mkDraft {
  draft_title : string;
  draft_description : string;
  draft_price : Q;
  draft_dateOfSale : JsDate;
  draft_category : string;
  draft_sold : bool
}.

(** The calls made on the model. *)
Inductive Call : Type :=
| c_deleteMany (q : Filter)
| c_save (d : Draft)
| c_find (q : Filter) (skip limit : option Z)
| c_countDocuments (q : Filter)
| c_aggregate (q : Filter) (id : GroupId) (a : Accumulator).

Definition call_filter (c : Call) : Filter :=
  match c with
  | c_deleteMany q => q
  | c_save _ => []
  | c_find q _ _ => q
  | c_countDocuments q => q
  | c_aggregate q _ _ => q
  end.

(** The world a request runs in.  [remote] is what an HTTP GET of a URL
    gives; [upcoming] lists what the database will answer to the next
    calls, [Some e] for a call that fails with [e] and [None] (or the end
    of the list) for a call that is served; [log] records the calls made
    so far. *)
Record World : Type := mkWorld {
  docs : list Transaction;
  remote : string -> Exn + list Item;
  upcoming : list (option Exn);
  log : list Call
}.

Definition healthy (w : World) : Prop :=
  Forall (fun o => o = None) (upcoming w).

(** *** Response bodies *)

Record Statistics : Type := mkStatistics {
  totalSaleAmount : Q;
  totalSoldItems : nat;
  totalNotSoldItems : nat
}.

Record BarEntry : Type := mkBarEntry {
  range : string;
  count : nat
}.

Record AllData : Type := mkAllData {
  transactions : list Transaction;
  statistics : Statistics;
  barChart : list BarEntry;
  pieChart : list Group
}.

Inductive Body : Type :=
| B_message (m : string)                  (* { message: m } *)
| B_error (m : string)                    (* { error: m } *)
| B_transactions (l : list Transaction)
| B_statistics (s : Statistics)
| B_barchart (l : list BarEntry)
| B_piechart (l : list Group)
| B_alldata (a : AllData).

Record Response : Type := mkResponse {
  status : Z;
  body : Body
}.

(** What becomes of a request: the handler answered, or its promise was
    rejected with nobody to catch it. *)
Inductive Outcome : Type :=
| Responded (r : Response)
| UnhandledRejection (e : Exn).

(** ** The monad of handlers: state and exceptions *)

Definition M (A : Type) : Type := World -> (Exn + A) * World.

Definition ret {A} (a : A) : M A := fun w => (inr a, w).

Definition throw {A} (e : Exn) : M A := fun w => (inl e, w).

Definition bind {A B} (m : M A) (k : A -> M B) : M B :=
  fun w =>
    match m w with
    | (inr a, w') => k a w'
    | (inl e, w') => (inl e, w')
    end.

Definition try_catch {A} (m : M A) (handler : Exn -> M A) : M A :=
  fun w =>
    match m w with
    | (inr a, w') => (inr a, w')
    | (inl e, w') => handler e w'
    end.

Declare Scope handler_scope.
Delimit Scope handler_scope with handler.
Notation "x <- m ;; k" := (bind m (fun x => k))
  (at level 61, m at next level, right associativity) : handler_scope.
Notation "m ;;; k" := (bind m (fun _ => k))
  (at level 61, right associativity) : handler_scope.

Local Open Scope handler_scope.

(** [for (const x of l) { await f(x) }] *)
Fixpoint for_of {A} (l : list A) (f : A -> M unit) : M unit :=
  match l with
  | [] => ret tt
  | x :: rest => f x ;;; for_of rest f
  end.

(** [for (const x of l) { result.push(await f(x)) }] *)
Fixpoint for_push {A B} (l : list A) (f : A -> M B) : M (list B) :=
  match l with
  | [] => ret []
  | x :: rest => y <- f x ;; ys <- for_push rest f ;; ret (y :: ys)
  end.

(** An async handler run by the router: a value is the response sent, an
    exception that leaves the handler is an unhandled rejection. *)
Definition serve (h : M Response) (w : World) : Outcome * World :=
  match h w with
  | (inr r, w') => (Responded r, w')
  | (inl e, w') => (UnhandledRejection e, w')
  end.

(** [res.json(b)] and [res.status(s).json(b)] *)
Definition json (b : Body) : M Response := ret (mkResponse 200 b).
Definition status_json (s : Z) (b : Body) : M Response := ret (mkResponse s b).

(** *** Primitive effects *)

(** A call on the model reaches the database: it is logged and takes the
    next upcoming answer. *)
Definition call (c : Call) : M unit :=
  fun w =>
    let w' := mkWorld (docs w) (remote w) (tl (upcoming w)) (log w ++ [c]) in
    match upcoming w with
    | Some e :: _ => (inl e, w')
    | _ => (inr tt, w')
    end.

Definition stored : M (list Transaction) := fun w => (inr (docs w), w).

Definition store (l : list Transaction) : M unit :=
  fun w => (inr tt, mkWorld l (remote w) (upcoming w) (log w)).

(** [axios.get(url)], already projected on [response.data]. *)
Definition axios_get (url : string) : M (list Item) :=
  fun w =>
    match remote w url with
    | inl e => (inl e, w)
    | inr data => (inr data, w)
    end.

(** ** The price ranges of the bar chart (lines 98-109 and 158-169) *)
Module PriceRange.
Record t : Type := mk {
  range : string;
  min : Q;
  max : JsNum
}.
End PriceRange.

Definition priceRanges : list PriceRange.t := [
  PriceRange.mk "0-100" 0 (Fin 100);
  PriceRange.mk "101-200" 101 (Fin 200);
  PriceRange.mk "201-300" 201 (Fin 300);
  PriceRange.mk "301-400" 301 (Fin 400);
  PriceRange.mk "401-500" 401 (Fin 500);
  PriceRange.mk "501-600" 501 (Fin 600);
  PriceRange.mk "601-700" 601 (Fin 700);
  PriceRange.mk "701-800" 701 (Fin 800);
  PriceRange.mk "801-900" 801 (Fin 900);
  PriceRange.mk "901-above" 901 Infinity
].

(** [range.max === Infinity ? Number.MAX_VALUE : range.max] *)
Definition upper_limit (r : PriceRange.t) : Q :=
  match PriceRange.max r with
  | Infinity => MAX_VALUE
  | Fin q => q
  end.

(** The requests the application routes. *)
Inductive Request : Type :=
| GET_seed
| GET_transactions (page perPage : option Z) (search month : option string)
| GET_statistics (month : option string)
| GET_barchart (month : option string)
| GET_piechart (month : option string)
| GET_alldata (month : option string).

Definition apiUrl : string :=
  "https://s3.amazonaws.com/roxiler.com/product_transaction.json".

(** ** Sample data for concrete runs *)
Module Sample.

(** Sold on 2022-01-15T00:00:00Z. *)
Definition lamp : Transaction :=
  mkTransaction "Lamp" "A desk lamp" 100 1642204800000 "home" true.

(** Sold on 2022-01-20T00:00:00Z, not yet paid. *)
Definition mug : Transaction :=
  mkTransaction "Mug" "A coffee mug" (25 # 2) 1642636800000 "kitchen" false.

Definition items : list Item := [
  mkItem "Backpack" "Fits a 15 inch laptop" (3299 # 10)
    "2021-11-27T20:29:54+05:30" "men's clothing" false;
  mkItem "Bracelet" "Gold plated" 695 "2021-10-27T20:29:54+05:30"
    "jewelery" true
].

Definition offline (url : string) : Exn + list Item :=
  inl (mkExn "AxiosError" "Network Error").

Definition online (url : string) : Exn + list Item := inr items.

(** A database holding the lamp, no network, every call served. *)
Definition w_lamp : World := mkWorld [lamp] offline [] [].

(** A database holding the lamp and the mug, the remote resource
    reachable, every call served. *)
Definition w_shop : World := mkWorld [lamp; mug] online [] [].

(** As [w_shop], but the third call to the database fails. *)
Definition w_flaky : World :=
  mkWorld [lamp; mug] online
    [None; None; Some (mkExn "MongoNetworkError" "connection closed")] [].

(** A remote array whose second item carries a date that does not parse. *)
Definition items_undated : list Item := [
  mkItem "Backpack" "Fits a 15 inch laptop" (3299 # 10)
    "2021-11-27T20:29:54+05:30" "men's clothing" false;
  mkItem "Bracelet" "Gold plated" 695 "last tuesday" "jewelery" true;
  mkItem "Jacket" "Cotton" (5599 # 100) "2022-07-27T20:29:54+05:30"
    "men's clothing" true
].

(** A double quote, and the exceptions of a library for the runs. *)
Definition quote : string :=
  String (Ascii false true false false false true false false) EmptyString.

Definition library : Library :=
  mkLibrary
    (mkExn "ValidationError"
       ("Transaction validation failed: dateOfSale: Cast to date failed for value "
        ++ quote ++ "Invalid Date" ++ quote ++ " (type Date) at path "
        ++ quote ++ "dateOfSale" ++ quote)%string)
    (mkExn "MongoServerError" "Skip value must be non-negative")
    (mkExn "MongoServerError" "Regular expression is invalid").

(** As [w_shop], with the array [items_undated] as remote resource. *)
Definition w_undated : World :=
  mkWorld [lamp; mug] (fun _ => inr items_undated) [] [].

(** As [w_shop], but the first call to the database fails. *)
Definition w_down : World :=
  mkWorld [lamp; mug] online
    [Some (mkExn "MongoNetworkError" "connection refused")] [].

End Sample.

(** ** The model operations and the handlers *)

Section Backend.

(** [new Date(s)] on a string, and the regular-expression engine of the
    database: the compiled pattern, or [None] when it is not a valid one. *)
Variable Date_parse : string -> JsDate.
Variable RegExp : string -> string -> option (string -> bool).

(** The exceptions of the database library. *)
Variable library : Library.

Definition new_Date (s : string) : JsDate := Date_parse s.

(** *** Matching a document against a filter *)

Definition field_value (t : Transaction) (f : Field) : Value :=
  match f with
  | f_title => V_string (title t)
  | f_description => V_string (description t)
  | f_price => V_number (price t)
  | f_dateOfSale => V_date (Some (dateOfSale t))
  | f_category => V_string (category t)
  | f_sold => V_bool (sold t)
  end.

(** Values are ordered within their own type only. *)
Definition compare_values (v w : Value) : option comparison :=
  match v, w with
  | V_string a, V_string b => Some (String.compare a b)
  | V_number a, V_number b => Some (a ?= b)%Q
  | V_date (Some a), V_date (Some b) => Some (a ?= b)%Z
  | V_bool a, V_bool b => Some (Bool.compare a b)
  | _, _ => None
  end.

Definition value_eqb (v w : Value) : bool :=
  match compare_values v w with
  | Some Eq => true
  | _ => false
  end.

(** How the database matches a value.  A regular expression matches text
    only; the handlers do not get there with another value, since a
    filter with a regular expression on a path that is not text is
    rejected before it is sent (see [filter_error]). *)
Definition operator_matches (v : Value) (o : Operator) : bool :=
  match o with
  | op_gte x =>
      match compare_values v x with
      | Some Eq | Some Gt => true
      | _ => false
      end
  | op_lt x =>
      match compare_values v x with
      | Some Lt => true
      | _ => false
      end
  | op_regex pattern options =>
      match v, RegExp pattern options with
      | V_string s, Some re => re s
      | _, _ => false
      end
  end.

Definition condition_matches (c : Condition) (v : Value) : bool :=
  match c with
  | Operators ops => forallb (operator_matches v) ops
  | Literal x => value_eqb v x
  end.

Fixpoint entry_matches (t : Transaction) (e : Entry) : bool :=
  match e with
  | E_path f c => condition_matches c (field_value t f)
  | E_or alternatives =>
      existsb (fun q => forallb (fun e' => entry_matches t e') q) alternatives
  end.

Definition matches (q : Filter) (t : Transaction) : bool :=
  forallb (entry_matches t) q.

Definition selected (q : Filter) (l : list Transaction) : list Transaction :=
  filter (matches q) l.

(** *** Filters that are rejected

    Modelled from the spec: the database library is not in the sources.
    [find], [countDocuments] and [deleteMany] cast their filter against
    the schema before anything is sent.  An Invalid Date does not cast
    (the spec, section 7, has an invalid month string end in a
    rejection), and neither does a regular expression on a path that the
    schema does not give as text.  The keys of a filter are cast from the
    last to the first, so the error of the last key that fails is the one
    raised. *)
Definition last_error {A} (f : A -> option Exn) : list A -> option Exn :=
  fix go (l : list A) : option Exn :=
    match l with
    | [] => None
    | x :: rest =>
        match go rest with
        | Some e => Some e
        | None => f x
        end
    end.

Definition value_error (v : Value) : option Exn :=
  match v with
  | V_date None => Some (CastError "date")
  | _ => None
  end.

Definition operator_error (f : Field) (o : Operator) : option Exn :=
  match o with
  | op_gte v | op_lt v => value_error v
  | op_regex _ _ =>
      match schema f with
      | T_String => None
      | T_Number => Some (CastError "number")
      | T_Date => Some (CastError "date")
      | T_Boolean => Some (CastError "boolean")
      end
  end.

Fixpoint entry_error (e : Entry) : option Exn :=
  match e with
  | E_path f (Operators ops) => last_error (operator_error f) ops
  | E_path _ (Literal v) => value_error v
  | E_or alternatives => last_error (last_error entry_error) alternatives
  end.

Definition filter_error (q : Filter) : option Exn := last_error entry_error q.

Definition check (q : Filter) : M unit :=
  match filter_error q with
  | Some e => throw e
  | None => ret tt
  end.

(** *** Filters that the database refuses

    A filter that has been sent is refused when one of its patterns is
    not a regular expression. *)
Definition first_error {A} (f : A -> option Exn) : list A -> option Exn :=
  fix go (l : list A) : option Exn :=
    match l with
    | [] => None
    | x :: rest =>
        match f x with
        | Some e => Some e
        | None => go rest
        end
    end.

Definition operator_pattern_error (o : Operator) : option Exn :=
  match o with
  | op_gte _ | op_lt _ => None
  | op_regex pattern options =>
      match RegExp pattern options with
      | Some _ => None
      | None => Some (invalid_pattern library)
      end
  end.

Fixpoint entry_pattern_error (e : Entry) : option Exn :=
  match e with
  | E_path _ (Operators ops) => first_error operator_pattern_error ops
  | E_path _ (Literal _) => None
  | E_or alternatives =>
      first_error (first_error entry_pattern_error) alternatives
  end.

Definition pattern_error (q : Filter) : option Exn :=
  first_error entry_pattern_error q.

Definition compile (q : Filter) : M unit :=
  match pattern_error q with
  | Some e => throw e
  | None => ret tt
  end.

(** *** Filters that are not cast

    The stages of [aggregate] are sent as they are written.  On the wire
    an Invalid Date is the time 0. *)
Definition wire_value (v : Value) : Value :=
  match v with
  | V_date None => V_date (Some 0%Z)
  | _ => v
  end.

Definition wire_operator (o : Operator) : Operator :=
  match o with
  | op_gte v => op_gte (wire_value v)
  | op_lt v => op_lt (wire_value v)
  | op_regex pattern options => op_regex pattern options
  end.

Fixpoint wire_entry (e : Entry) : Entry :=
  match e with
  | E_path f (Operators ops) => E_path f (Operators (map wire_operator ops))
  | E_path f (Literal v) => E_path f (Literal (wire_value v))
  | E_or alternatives => E_or (map (map wire_entry) alternatives)
  end.

Definition on_the_wire (q : Filter) : Filter := map wire_entry q.

(** *** Operations of the model *)

(** [Transaction.deleteMany(q)] *)
Definition deleteMany (q : Filter) : M unit :=
  check q ;;;
  call (c_deleteMany q) ;;;
  compile q ;;;
  l <- stored ;;
  store (filter (fun t => negb (matches q t)) l).

(** [new Transaction({ ... })] *)
Definition new_Transaction (title description : string) (price : Q)
    (dateOfSale : JsDate) (category : string) (sold : bool) : Draft :=
  mkDraft title description price dateOfSale category sold.

(** [doc.save()]: a document whose date is invalid fails validation, with
    the library's [ValidationError], and is not sent; otherwise it is
    appended to the collection. *)
Definition save (d : Draft) : M unit :=
  match draft_dateOfSale d with
  | None => throw (ValidationError library)
  | Some date =>
      call (c_save d) ;;;
      l <- stored ;;
      store (l ++ [mkTransaction (draft_title d) (draft_description d)
                     (draft_price d) date (draft_category d) (draft_sold d)])
  end.

(** [.skip(n).limit(k)] on the documents found: a negative skip is
    refused, with the library's [negative_skip], a limit of 0 is no limit
    and a negative limit is its absolute value. *)
Definition window (skip limit : option Z) (l : list Transaction)
  : Exn + list Transaction :=
  let after_skip :=
    match skip with
    | None => inr l
    | Some n =>
        if (n <? 0)%Z
        then inl (negative_skip library)
        else inr (List.skipn (Z.to_nat n) l)
    end in
  match after_skip with
  | inl e => inl e
  | inr l' =>
      match limit with
      | None => inr l'
      | Some k =>
          if (k =? 0)%Z then inr l'
          else inr (List.firstn (Z.to_nat (Z.abs k)) l')
      end
  end.

(** [Transaction.find(q)], with [.skip] and [.limit] when given; the
    documents come in the order they were stored. *)
Definition find (q : Filter) (skip limit : option Z) : M (list Transaction) :=
  check q ;;;
  call (c_find q skip limit) ;;;
  compile q ;;;
  l <- stored ;;
  match window skip limit (selected q l) with
  | inl e => throw e
  | inr found => ret found
  end.

(** [Transaction.countDocuments(q)] *)
Definition countDocuments (q : Filter) : M nat :=
  check q ;;;
  call (c_countDocuments q) ;;;
  compile q ;;;
  l <- stored ;;
  ret (List.length (selected q l)).

Definition group_key (id : GroupId) (t : Transaction) : option Value :=
  match id with
  | id_null => None
  | id_path f => Some (field_value t f)
  end.

Definition key_eqb (k k' : option Value) : bool :=
  match k, k' with
  | None, None => true
  | Some v, Some v' => value_eqb v v'
  | _, _ => false
  end.

(** [$sum] adds numbers and passes over other values. *)
Definition summand (a : Accumulator) (t : Transaction) : Q :=
  match a with
  | sum_const q => q
  | sum_path f =>
      match field_value t f with
      | V_number q => q
      | _ => 0
      end
  end.

Fixpoint add_to_group (k : option Value) (x : Q) (gs : list Group)
  : list Group :=
  match gs with
  | [] => [mkGroup k x]
  | g :: rest =>
      if key_eqb (_id g) k
      then mkGroup (_id g) (acc g + x) :: rest
      else g :: add_to_group k x rest
  end.

(** The groups are listed by first occurrence of their key (the database
    promises no order). *)
Definition group (id : GroupId) (a : Accumulator) (l : list Transaction)
  : list Group :=
  fold_left (fun gs t => add_to_group (group_key id t) (summand a t) gs) l [].

(** [Transaction.aggregate([{ $match: q }, { $group: { _id: id, x: a } }])]:
    the pipeline is not cast. *)
Definition aggregate (q : Filter) (id : GroupId) (a : Accumulator)
  : M (list Group) :=
  call (c_aggregate q id a) ;;;
  compile q ;;;
  l <- stored ;;
  ret (group id a (selected (on_the_wire q) l)).

(** *** The handlers *)

(** [{ dateOfSale: { $gte: new Date(`${month}`), $lt: new Date(`${month}`) } }],
    the entry written at lines 47, 71, 95, 130, 147, 151, 174 and 181. *)
Definition month_entry (month : option string) : Entry :=
  E_path f_dateOfSale
    (Operators [op_gte (V_date (new_Date (template month)));
                op_lt (V_date (new_Date (template month)))]).

(** The entry of lines 155 and 156, whose upper limit is
    [new Date(`${month}-31T23:59:59.999Z`)]. *)
Definition month_entry_31 (month : option string) : Entry :=
  E_path f_dateOfSale
    (Operators [op_gte (V_date (new_Date (template month)));
                op_lt (V_date (new_Date
                         (template month ++ "-31T23:59:59.999Z")%string))]).

Definition sold_is (b : bool) : Entry := E_path f_sold (Literal (V_bool b)).

(** [price: { $gte: range.min, $lt: ... }] *)
Definition price_entry (r : PriceRange.t) : Entry :=
  E_path f_price
    (Operators [op_gte (V_number (PriceRange.min r));
                op_lt (V_number (upper_limit r))]).

(** The [$or] of lines 51-55. *)
Definition search_entry (search : string) : Entry :=
  E_or [[E_path f_title (Operators [op_regex search "i"])];
        [E_path f_description (Operators [op_regex search "i"])];
        [E_path f_price (Operators [op_regex search "i"])]].

Definition default {A} (d : A) (x : option A) : A :=
  match x with
  | Some a => a
  | None => d
  end.

(** A string is truthy when it is not empty. *)
Definition truthy (s : string) : bool :=
  match s with
  | EmptyString => false
  | String _ _ => true
  end.

(** [gs[0]?.total || 0] *)
Definition total_or_zero (gs : list Group) : Q :=
  match gs with
  | [] => 0
  | g :: _ => if Qeq_bool (acc g) 0 then 0 else acc g
  end.

(** GET /seed, lines 14-39. *)
Definition seed : M Response :=
  try_catch
    (data <- axios_get apiUrl ;;
     deleteMany [] ;;;
     for_of data (fun item =>
       let newItem :=
         new_Transaction (item_title item) (item_description item)
           (item_price item) (new_Date (item_dateOfSale item))
           (item_category item) (item_sold item) in
       save newItem) ;;;
     json (B_message "Database seeded successfully!"))
    (fun error => status_json 500 (B_error (message error))).

(** GET /transactions, lines 43-63; [page] and [perPage] are read as
    integers. *)
Definition get_transactions (page perPage : option Z)
    (search month : option string) : M Response :=
  let page := default 1%Z page in
  let perPage := default 10%Z perPage in
  let search := default "" search in
  let query := [month_entry month] in
  let query := if truthy search then query ++ [search_entry search] else query in
  transactions <- find query (Some ((page - 1) * perPage)%Z) (Some perPage) ;;
  json (B_transactions transactions).

(** GET /statistics, lines 67-87. *)
Definition get_statistics (month : option string) : M Response :=
  let query := [month_entry month] in
  totalSaleAmount <- aggregate query id_null (sum_path f_price) ;;
  totalSoldItems <- countDocuments (query ++ [sold_is true]) ;;
  totalNotSoldItems <- countDocuments (query ++ [sold_is false]) ;;
  json (B_statistics
          (mkStatistics (total_or_zero totalSaleAmount)
             totalSoldItems totalNotSoldItems)).

(** GET /barchart, lines 91-122. *)
Definition get_barchart (month : option string) : M Response :=
  let query := [month_entry month] in
  result <- for_push priceRanges (fun range =>
    count <- countDocuments (query ++ [price_entry range]) ;;
    ret (mkBarEntry (PriceRange.range range) count)) ;;
  json (B_barchart result).

(** GET /piechart, lines 126-139. *)
Definition get_piechart (month : option string) : M Response :=
  let query := [month_entry month] in
  categories <- aggregate query (id_path f_category) (sum_const 1) ;;
  json (B_piechart categories).

(** GET /alldata, lines 143-195. *)
Definition get_alldata (month : option string) : M Response :=
  transactions <- find [month_entry month] None None ;;
  totalSaleAmount <- aggregate [month_entry month] id_null (sum_path f_price) ;;
  totalSoldItems <- countDocuments [month_entry_31 month; sold_is true] ;;
  totalNotSoldItems <- countDocuments [month_entry_31 month; sold_is false] ;;
  barChartResult <- for_push priceRanges (fun range =>
    count <- countDocuments [month_entry month; price_entry range] ;;
    ret (mkBarEntry (PriceRange.range range) count)) ;;
  categories <- aggregate [month_entry month] (id_path f_category) (sum_const 1) ;;
  json (B_alldata
          (mkAllData transactions
             (mkStatistics (total_or_zero totalSaleAmount)
                totalSoldItems totalNotSoldItems)
             barChartResult categories)).

(** The routes. *)
Definition app (r : Request) : M Response :=
  match r with
  | GET_seed => seed
  | GET_transactions page perPage search month =>
      get_transactions page perPage search month
  | GET_statistics month => get_statistics month
  | GET_barchart month => get_barchart month
  | GET_piechart month => get_piechart month
  | GET_alldata month => get_alldata month
  end.

Definition is_query (r : Request) : bool :=
  match r with
  | GET_seed => false
  | _ => true
  end.

Definition month_of (r : Request) : option string :=
  match r with
  | GET_seed => None
  | GET_transactions _ _ _ month => month
  | GET_statistics month | GET_barchart month
  | GET_piechart month | GET_alldata month => month
  end.

(** *** Vocabulary of the statements *)

(** The world after the calls [cs] have been made, whatever their
    answers. *)
Definition after_calls (cs : list Call) (w : World) : World :=
  mkWorld (docs w) (remote w) (skipn (List.length cs) (upcoming w))
    (log w ++ cs).

(** The answer the database gives to the next call. *)
Definition next_answer (w : World) : option Exn := hd None (upcoming w).

(** The database serves [n] calls and fails the one after with [e]. *)
Definition fails_at (n : nat) (e : Exn) (w : World) : Prop :=
  exists rest, upcoming w = repeat None n ++ Some e :: rest.

(** The records of the collection in the month filter. *)
Definition in_month (month : option string) (w : World) : list Transaction :=
  filter (fun t => entry_matches t (month_entry month)) (docs w).

(** lo <= p < hi *)
Definition within (lo hi p : Q) : bool := Qle_bool lo p && negb (Qle_bool hi p).

(** The ten buckets in the words of the specification: label, lower
    limit (included) and upper limit (excluded). *)
Definition buckets : list (string * Q * Q) := [
  ("0-100", 0, 100); ("101-200", 101, 200); ("201-300", 201, 300);
  ("301-400", 301, 400); ("401-500", 401, 500); ("501-600", 501, 600);
  ("601-700", 601, 700); ("701-800", 701, 800); ("801-900", 801, 900);
  ("901-above", 901, MAX_VALUE)
].

Definition bucket_count (month : option string) (w : World)
    (b : string * Q * Q) : BarEntry :=
  let '(label, lo, hi) := b in
  mkBarEntry label
    (List.length (filter (fun t => within lo hi (price t)) (in_month month w))).

Definition sum_prices (l : list Transaction) : Q :=
  fold_right Qplus 0 (map price l).

Definition count_sold (b : bool) (l : list Transaction) : nat :=
  List.length (filter (fun t => Bool.eqb (sold t) b) l).

(** The record stored for an item of the remote array. *)
Definition document_of (i : Item) (t : Transaction) : Prop :=
  title t = item_title i /\
  description t = item_description i /\
  price t = item_price i /\
  new_Date (item_dateOfSale i) = Some (dateOfSale t) /\
  category t = item_category i /\
  sold t = item_sold i.

(** The number of calls a query handler makes when all are served. *)
Definition calls_of (r : Request) : nat :=
  match r with
  | GET_seed => 0
  | GET_transactions _ _ _ _ => 1
  | GET_statistics _ => 3
  | GET_barchart _ => 10
  | GET_piechart _ => 1
  | GET_alldata _ => 15
  end.

(** The filters of a request are accepted: its dates are valid and it
    carries no search string. *)
Definition accepted (r : Request) : Prop :=
  match r with
  | GET_seed => True
  | GET_transactions _ _ search month =>
      new_Date (template month) <> None /\
      truthy (default "" search) = false
  | GET_statistics month | GET_barchart month | GET_piechart month =>
      new_Date (template month) <> None
  | GET_alldata month =>
      new_Date (template month) <> None /\
      new_Date (template month ++ "-31T23:59:59.999Z")%string <> None
  end.

(** A computation that leaves the collection and the remote resource as
    they are and makes only calls that satisfy [P]. *)
Definition reads_only {A} (P : Call -> Prop) (m : M A) : Prop :=
  forall w,
    docs (snd (m w)) = docs w /\
    remote (snd (m w)) = remote w /\
    exists cs, log (snd (m w)) = log w ++ cs /\ Forall P cs.

(** The calls whose filter carries the month entry. *)
Definition on_month (month : option string) (c : Call) : Prop :=
  In (month_entry month) (call_filter c).

(** The search filter without its price clause. *)
Definition title_or_description (search : string) : Entry :=
  E_or [[E_path f_title (Operators [op_regex search "i"])];
        [E_path f_description (Operators [op_regex search "i"])]].

(** The loop of /barchart, over any list of ranges. *)
Definition count_loop (month : option string) (l : list PriceRange.t)
  : M (list BarEntry) :=
  for_push l (fun range =>
    count <- countDocuments ([month_entry month] ++ [price_entry range]) ;;
    ret (mkBarEntry (PriceRange.range range) count)).

Definition count_calls (month : option string) (l : list PriceRange.t)
  : list Call :=
  map (fun r => c_countDocuments [month_entry month; price_entry r]) l.

Definition count_entries (month : option string) (w : World)
    (l : list PriceRange.t) : list BarEntry :=
  map (fun r => bucket_count month w
                  (PriceRange.range r, PriceRange.min r, upper_limit r)) l.

(** The body of the loop of /seed and the block under [try]. *)
Definition save_item (item : Item) : M unit :=
  save (new_Transaction (item_title item) (item_description item)
          (item_price item) (new_Date (item_dateOfSale item))
          (item_category item) (item_sold item)).

Definition seed_try : M Response :=
  data <- axios_get apiUrl ;;
  deleteMany [] ;;;
  for_of data save_item ;;;
  json (B_message "Database seeded successfully!").

Definition seeded : Response :=
  mkResponse 200 (B_message "Database seeded successfully!").

Definition failed (e : Exn) : Response :=
  mkResponse 500 (B_error (message e)).

Definition valid_date (item : Item) : Prop :=
  new_Date (item_dateOfSale item) <> None.

(** The database serves the next [k] calls. *)
Definition quiet (k : nat) (w : World) : Prop :=
  forall i, (i < k)%nat -> nth i (upcoming w) None = None.

(** The prices that lie between the buckets: negative ones,
    and those from a multiple of 100 up to the next integer, for 100 to
    900. *)
Definition in_gap (p : Q) : Prop :=
  (p < 0)%Q \/
  exists k : Z,
    (1 <= k <= 9)%Z /\ (inject_Z (100 * k) <= p)%Q /\
    (p < inject_Z (100 * k + 1))%Q.

Definition sum_counts (l : list BarEntry) : nat :=
  fold_right Nat.add 0%nat (map count l).

(** What /alldata answers. *)
Definition alldata_answer (month : option string) (w : World) : Response :=
  mkResponse 200
    (B_alldata
       (mkAllData []
          (mkStatistics 0
             (List.length (selected [month_entry_31 month; sold_is true]
                             (docs w)))
             (List.length (selected [month_entry_31 month; sold_is false]
                             (docs w))))
          (map (bucket_count month w) buckets) [])).

(** What /statistics answers, in the words of the specification. *)
Definition statistics_answer (month : option string) (w : World) : Response :=
  mkResponse 200
    (B_statistics
       (mkStatistics (sum_prices (in_month month w))
          (count_sold true (in_month month w))
          (count_sold false (in_month month w)))).

(** Page [p] of size [k] of the records in the month filter. *)
Definition page_listing (p k : Z) (month : option string) (w : World)
  : list Transaction :=
  firstn (Z.to_nat k) (skipn (Z.to_nat ((p - 1) * k)) (in_month month w)).

(** The filter that /transactions builds. *)
Definition transactions_query (search month : option string) : Filter :=
  if truthy (default "" search)
  then [month_entry month] ++ [search_entry (default "" search)]
  else [month_entry month].

(** The document that /seed builds for an item, and the calls of a seeding
    that goes through. *)
Definition draft_of (item : Item) : Draft :=
  new_Transaction (item_title item) (item_description item)
    (item_price item) (new_Date (item_dateOfSale item))
    (item_category item) (item_sold item).

Definition seed_calls (data : list Item) : list Call :=
  c_deleteMany [] :: map (fun item => c_save (draft_of item)) data.

(** The calls that read the collection. *)
Definition is_read (c : Call) : Prop :=
  match c with
  | c_find _ _ _ | c_countDocuments _ | c_aggregate _ _ _ => True
  | c_deleteMany _ | c_save _ => False
  end.

(** Sold (or not) at a time from [lo] on and before [hi]. *)
Definition sold_between (lo hi : Z) (b : bool) (t : Transaction) : bool :=
  (lo <=? dateOfSale t)%Z && (dateOfSale t <? hi)%Z && Bool.eqb (sold t) b.

(** The bar chart with every count at 0. *)
Definition empty_chart : list BarEntry :=
  map (fun r => mkBarEntry (PriceRange.range r) 0) priceRanges.

(** The calls of /alldata, in the order they are made. *)
Definition alldata_calls (month : option string) : list Call :=
  [c_find [month_entry month] None None;
   c_aggregate [month_entry month] id_null (sum_path f_price);
   c_countDocuments [month_entry_31 month; sold_is true];
   c_countDocuments [month_entry_31 month; sold_is false]]
  ++ count_calls month priceRanges
  ++ [c_aggregate [month_entry month] (id_path f_category) (sum_const 1)].

(** The price is in the range: [range.min <= p < upper limit]. *)
Definition in_range (r : PriceRange.t) (p : Q) : bool :=
  within (PriceRange.min r) (upper_limit r) p.

(** * Properties *)

(** ** The monad and the primitive effects *)

Lemma bind_inr {A B} (m : M A) (k : A -> M B) w a w' :
  m w = (inr a, w') -> bind m k w = k a w'.
Proof. intros H. unfold bind. rewrite H. reflexivity. Qed.

Lemma bind_inl {A B} (m : M A) (k : A -> M B) w e w' :
  m w = (inl e, w') -> bind m k w = (inl e, w').
Proof. intros H. unfold bind. rewrite H. reflexivity. Qed.

Lemma call_eq c w :
  call c w =
  (match next_answer w with Some e => inl e | None => inr tt end,
   after_calls [c] w).
Proof.
  unfold call, next_answer, after_calls.
  destruct (upcoming w) as [|[e|] u]; reflexivity.
Qed.

Lemma after_calls_app cs cs' w :
  after_calls cs' (after_calls cs w) = after_calls (cs ++ cs') w.
Proof.
  unfold after_calls; simpl. f_equal.
  - rewrite length_app, skipn_skipn. f_equal. lia.
  - now rewrite app_assoc.
Qed.

Lemma after_calls_nil w : after_calls [] w = w.
Proof. destruct w; unfold after_calls; simpl. now rewrite app_nil_r. Qed.

Lemma healthy_next w : healthy w -> next_answer w = None.
Proof.
  unfold healthy, next_answer. intros H.
  destruct (upcoming w); [reflexivity | now inversion H].
Qed.

Lemma healthy_after cs w : healthy w -> healthy (after_calls cs w).
Proof.
  unfold healthy; simpl. generalize (List.length cs) as n.
  intros n H. revert n. induction H; intros [|n]; simpl; auto.
Qed.

Lemma fails_at_0 e w : fails_at 0 e w -> next_answer w = Some e.
Proof. intros [rest H]. unfold next_answer. now rewrite H. Qed.

Lemma fails_at_S n e w :
  fails_at (S n) e w ->
  next_answer w = None /\ forall c, fails_at n e (after_calls [c] w).
Proof.
  intros [rest H]. unfold next_answer, fails_at; simpl. rewrite H; simpl.
  split; [reflexivity | now exists rest].
Qed.

Lemma quiet_next k w : quiet (S k) w -> next_answer w = None.
Proof.
  intros H. specialize (H 0%nat (Nat.lt_0_succ k)). unfold next_answer.
  now destruct (upcoming w).
Qed.

Lemma quiet_after cs k w :
  quiet (List.length cs + k) w -> quiet k (after_calls cs w).
Proof.
  intros H i Hi. unfold after_calls; simpl. rewrite nth_skipn.
  apply H. lia.
Qed.

Lemma healthy_quiet k w : healthy w -> quiet k w.
Proof.
  unfold healthy. intros H i _. revert i.
  induction H as [|o u Ho _ IH]; intros [|i]; simpl; auto.
Qed.

Lemma fails_at_quiet n e w : fails_at n e w -> quiet n w.
Proof.
  intros [rest H] i Hi. rewrite H.
  rewrite app_nth1 by now rewrite repeat_length.
  apply nth_repeat_lt. exact Hi.
Qed.

Lemma fails_at_after cs n e w :
  fails_at (List.length cs + n) e w -> fails_at n e (after_calls cs w).
Proof.
  intros [rest H]. exists rest. unfold after_calls; simpl. rewrite H.
  rewrite repeat_app, <- app_assoc.
  rewrite skipn_app, repeat_length, Nat.sub_diag; simpl.
  now rewrite skipn_all2 by now rewrite repeat_length.
Qed.

(** ** Filters *)

Lemma month_entry_never t month :
  entry_matches t (month_entry month) = false.
Proof.
  unfold month_entry; simpl.
  destruct (new_Date (template month)) as [d|]; simpl; [|reflexivity].
  destruct (dateOfSale t ?= d)%Z; reflexivity.
Qed.

Lemma matches_month q t month :
  In (month_entry month) q -> matches q t = false.
Proof.
  intros H. unfold matches.
  destruct (forallb (entry_matches t) q) eqn:E; [|reflexivity].
  rewrite forallb_forall in E. specialize (E _ H).
  now rewrite month_entry_never in E.
Qed.

Lemma filter_none {A} (f : A -> bool) (l : list A) :
  (forall x, f x = false) -> filter f l = [].
Proof.
  intros H. induction l as [|x l IH]; [reflexivity|].
  cbn [filter]. now rewrite H.
Qed.

Lemma selected_month q l month :
  In (month_entry month) q -> selected q l = [].
Proof.
  intros H. apply filter_none. intros t. now apply matches_month with month.
Qed.

Lemma in_month_nil month w : in_month month w = [].
Proof. apply filter_none. intros t. apply month_entry_never. Qed.

Lemma month_entry_error month :
  entry_error (month_entry month) =
  match new_Date (template month) with
  | Some _ => None
  | None => Some (CastError "date")
  end.
Proof.
  unfold month_entry; simpl. now destruct (new_Date (template month)).
Qed.

Lemma Qle_bool_compare lo p :
  Qle_bool lo p = match (p ?= lo)%Q with Lt => false | _ => true end.
Proof.
  destruct (p ?= lo)%Q eqn:C.
  - apply Qeq_alt in C. apply Qle_bool_iff. rewrite C. apply Qle_refl.
  - apply Qlt_alt in C. destruct (Qle_bool lo p) eqn:E; [|reflexivity].
    apply Qle_bool_iff in E. exfalso. now apply (Qlt_not_le p lo).
  - apply Qgt_alt in C. apply Qle_bool_iff. now apply Qlt_le_weak.
Qed.

Lemma within_compare lo hi p :
  within lo hi p =
  match (p ?= lo)%Q with Eq | Gt => true | Lt => false end
  && match (p ?= hi)%Q with Lt => true | _ => false end.
Proof.
  unfold within. rewrite !Qle_bool_compare.
  destruct (p ?= lo)%Q, (p ?= hi)%Q; reflexivity.
Qed.

Lemma price_entry_within t r :
  entry_matches t (price_entry r) =
  within (PriceRange.min r) (upper_limit r) (price t).
Proof.
  unfold price_entry; simpl. rewrite within_compare, andb_true_r.
  reflexivity.
Qed.

(** ** The operations of the model *)

Lemma check_accepts q w : filter_error q = None -> check q w = (inr tt, w).
Proof. intros H. unfold check. now rewrite H. Qed.

Lemma check_rejects q e w :
  filter_error q = Some e -> check q w = (inl e, w).
Proof. intros H. unfold check. now rewrite H. Qed.

Lemma compile_accepts q w : pattern_error q = None -> compile q w = (inr tt, w).
Proof. intros H. unfold compile. now rewrite H. Qed.

Lemma countDocuments_eq q w :
  filter_error q = None ->
  pattern_error q = None ->
  countDocuments q w =
  (match next_answer w with
   | Some e => inl e
   | None => inr (List.length (selected q (docs w)))
   end, after_calls [c_countDocuments q] w).
Proof.
  intros H Hp. unfold countDocuments.
  rewrite (bind_inr _ _ _ _ _ (check_accepts q w H)).
  unfold bind at 1. rewrite call_eq.
  destruct (next_answer w); [reflexivity|].
  now rewrite (bind_inr _ _ _ _ _ (compile_accepts q _ Hp)).
Qed.

Lemma find_eq q skip limit w :
  filter_error q = None ->
  pattern_error q = None ->
  find q skip limit w =
  (match next_answer w with
   | Some e => inl e
   | None => window skip limit (selected q (docs w))
   end, after_calls [c_find q skip limit] w).
Proof.
  intros H Hp. unfold find.
  rewrite (bind_inr _ _ _ _ _ (check_accepts q w H)).
  unfold bind at 1. rewrite call_eq.
  destruct (next_answer w); [reflexivity|].
  rewrite (bind_inr _ _ _ _ _ (compile_accepts q _ Hp)).
  unfold bind, stored; simpl.
  destruct (window skip limit (selected q (docs w))); reflexivity.
Qed.

Lemma rejected_countDocuments q e w :
  filter_error q = Some e -> countDocuments q w = (inl e, w).
Proof.
  intros H. unfold countDocuments.
  now rewrite (bind_inl _ _ _ _ _ (check_rejects q e w H)).
Qed.

Lemma rejected_find q skip limit e w :
  filter_error q = Some e -> find q skip limit w = (inl e, w).
Proof.
  intros H. unfold find.
  now rewrite (bind_inl _ _ _ _ _ (check_rejects q e w H)).
Qed.

(** A filter with the same date as lower and as upper limit selects
    nothing. *)
Lemma same_limits_never t d :
  entry_matches t
    (E_path f_dateOfSale (Operators [op_gte (V_date d); op_lt (V_date d)]))
  = false.
Proof.
  simpl. destruct d as [d|]; simpl; [|reflexivity].
  destruct (dateOfSale t ?= d)%Z; reflexivity.
Qed.

(** The aggregates of the handlers are all on the month entry: they are
    sent whatever the month is and group nothing. *)
Lemma aggregate_month_eq month id a w :
  aggregate [month_entry month] id a w =
  (match next_answer w with
   | Some e => inl e
   | None => inr []
   end, after_calls [c_aggregate [month_entry month] id a] w).
Proof.
  unfold aggregate. unfold bind at 1. rewrite call_eq.
  destruct (next_answer w); [reflexivity|].
  rewrite (bind_inr _ _ _ _ _ (compile_accepts [month_entry month] _ eq_refl)).
  unfold bind, stored, ret; simpl. do 2 f_equal.
  unfold selected. rewrite filter_none; [reflexivity|].
  intros t. unfold matches, on_the_wire, month_entry.
  destruct (new_Date (template month)) as [d|];
    cbn [map wire_entry wire_operator wire_value forallb];
    now rewrite same_limits_never.
Qed.

Lemma window_nil skip limit found :
  window skip limit [] = inr found -> found = [].
Proof.
  unfold window. destruct skip as [n|].
  - destruct (n <? 0)%Z; [discriminate|].
    rewrite skipn_nil. destruct limit as [k|].
    + destruct (k =? 0)%Z; [congruence|]. rewrite firstn_nil. congruence.
    + congruence.
  - destruct limit as [k|].
    + destruct (k =? 0)%Z; [congruence|]. rewrite firstn_nil. congruence.
    + congruence.
Qed.

(** ** Computations that only read *)

Lemma reads_only_ret {A} P (a : A) : reads_only P (ret a).
Proof.
  intros w; simpl. repeat split. exists []. now rewrite app_nil_r.
Qed.

Lemma reads_only_throw {A} P e : reads_only P (@throw A e).
Proof.
  intros w; simpl. repeat split. exists []. now rewrite app_nil_r.
Qed.

Lemma reads_only_bind {A B} P (m : M A) (k : A -> M B) :
  reads_only P m -> (forall a, reads_only P (k a)) -> reads_only P (bind m k).
Proof.
  intros Hm Hk w. unfold bind.
  destruct (Hm w) as (Hd & Hr & cs & Hl & Hcs).
  destruct (m w) as [[e|a] w1]; simpl in *.
  - repeat split; auto. now exists cs.
  - destruct (Hk a w1) as (Hd' & Hr' & cs' & Hl' & Hcs').
    repeat split; try congruence.
    exists (cs ++ cs'). split.
    + now rewrite Hl', Hl, app_assoc.
    + apply Forall_app. now split.
Qed.

Lemma reads_only_call P c : P c -> reads_only P (call c).
Proof.
  intros Hc w. rewrite call_eq; simpl. repeat split.
  exists [c]. split; [reflexivity | now constructor].
Qed.

Lemma reads_only_stored P : reads_only P stored.
Proof.
  intros w; simpl. repeat split. exists []. now rewrite app_nil_r.
Qed.

Lemma reads_only_check P q : reads_only P (check q).
Proof.
  unfold check. destruct (filter_error q);
    [apply reads_only_throw | apply reads_only_ret].
Qed.

Lemma reads_only_compile P q : reads_only P (compile q).
Proof.
  unfold compile. destruct (pattern_error q);
    [apply reads_only_throw | apply reads_only_ret].
Qed.

Lemma reads_only_for_push {A B} P (l : list A) (f : A -> M B) :
  (forall x, reads_only P (f x)) -> reads_only P (for_push l f).
Proof.
  intros Hf. induction l as [|x l IH]; simpl.
  - apply reads_only_ret.
  - apply reads_only_bind; [apply Hf | intros y].
    apply reads_only_bind; [apply IH | intros ys]. apply reads_only_ret.
Qed.

Create HintDb reads discriminated.
#[local] Hint Resolve reads_only_ret reads_only_throw reads_only_call
  reads_only_stored reads_only_check reads_only_compile : reads.

Lemma reads_only_find P q skip limit :
  P (c_find q skip limit) -> reads_only P (find q skip limit).
Proof.
  intros Hc. unfold find.
  repeat (apply reads_only_bind; [auto with reads | intros ?]).
  destruct (window _ _ _); auto with reads.
Qed.

Lemma reads_only_countDocuments P q :
  P (c_countDocuments q) -> reads_only P (countDocuments q).
Proof.
  intros Hc. unfold countDocuments.
  repeat (apply reads_only_bind; [auto with reads | intros ?]).
  auto with reads.
Qed.

Lemma reads_only_aggregate P q id a :
  P (c_aggregate q id a) -> reads_only P (aggregate q id a).
Proof.
  intros Hc. unfold aggregate.
  repeat (apply reads_only_bind; [auto with reads | intros ?]).
  auto with reads.
Qed.

Ltac reads :=
  repeat first
    [ apply reads_only_find
    | apply reads_only_countDocuments
    | apply reads_only_aggregate
    | apply reads_only_for_push; intros ?
    | apply reads_only_ret
    | apply reads_only_bind; [|intros ?] ].

Lemma reads_only_transactions page perPage search month :
  reads_only (on_month month) (get_transactions page perPage search month).
Proof.
  unfold get_transactions, json. reads.
  unfold on_month; simpl. destruct (truthy _); simpl; auto.
Qed.

Lemma reads_only_statistics month :
  reads_only (on_month month) (get_statistics month).
Proof.
  unfold get_statistics, json. reads; unfold on_month; simpl; auto.
Qed.

Lemma reads_only_barchart month :
  reads_only (on_month month) (get_barchart month).
Proof.
  unfold get_barchart, json. reads; unfold on_month; simpl; auto.
Qed.

Lemma reads_only_piechart month :
  reads_only (on_month month) (get_piechart month).
Proof.
  unfold get_piechart, json. reads; unfold on_month; simpl; auto.
Qed.

Lemma reads_only_alldata month :
  reads_only (fun _ => True) (get_alldata month).
Proof.
  unfold get_alldata, json. reads; exact I.
Qed.

Lemma serve_snd h w : snd (serve h w) = snd (h w).
Proof. unfold serve. now destruct (h w) as [[e|r] w']. Qed.

(** ** The month filter *)

(** C2: the month entry written by /transactions, /statistics, /barchart
    and /piechart has the same date [new Date(month)] as lower and as upper
    limit; no transaction satisfies it, nor any filter that contains it; and
    every call those four handlers make carries it in its filter. *)
Theorem month_filter_is_empty (month : option string) :
  (exists d,
      d = new_Date (template month) /\
      month_entry month =
      E_path f_dateOfSale (Operators [op_gte (V_date d); op_lt (V_date d)])) /\
  (forall t, entry_matches t (month_entry month) = false) /\
  (forall q t, In (month_entry month) q -> matches q t = false) /\
  (forall page perPage search,
      reads_only (on_month month)
        (get_transactions page perPage search month)) /\
  reads_only (on_month month) (get_statistics month) /\
  reads_only (on_month month) (get_barchart month) /\
  reads_only (on_month month) (get_piechart month).
Proof.
  split; [|split; [|split; [|split; [|split; [|split]]]]].
  - exists (new_Date (template month)). split; reflexivity.
  - intros t. apply month_entry_never.
  - intros q t H. now apply matches_month with month.
  - intros page perPage search. apply reads_only_transactions.
  - apply reads_only_statistics.
  - apply reads_only_barchart.
  - apply reads_only_piechart.
Qed.

(** ** The stored records are left alone *)

(** C8: a request to /transactions, /statistics, /barchart, /piechart or
    /alldata leaves the stored records as they were, whatever the database
    answers. *)
Theorem queries_keep_the_records (r : Request) (w : World) :
  is_query r = true ->
  docs (snd (serve (app r) w)) = docs w.
Proof.
  intros Hq. rewrite serve_snd.
  destruct r as [|page perPage search month|month|month|month|month];
    simpl in *; try discriminate.
  - apply (reads_only_transactions page perPage search month w).
  - apply (reads_only_statistics month w).
  - apply (reads_only_barchart month w).
  - apply (reads_only_piechart month w).
  - apply (reads_only_alldata month w).
Qed.

(** ** Accepted and rejected filters *)

Lemma filter_error_month month d q :
  new_Date (template month) = Some d ->
  filter_error (month_entry month :: q) = filter_error q.
Proof.
  intros H. unfold filter_error. cbn [last_error].
  destruct (last_error entry_error q); [reflexivity|].
  now rewrite month_entry_error, H.
Qed.

Lemma filter_error_month_invalid month q :
  new_Date (template month) = None ->
  filter_error q = None ->
  filter_error (month_entry month :: q) = Some (CastError "date").
Proof.
  intros H Hq. unfold filter_error in *. cbn [last_error].
  now rewrite Hq, month_entry_error, H.
Qed.

(** The search filter does not cast: it puts a regular expression on the
    numeric price. *)
Lemma filter_error_search q search :
  filter_error (q ++ [search_entry search]) = Some (CastError "number").
Proof.
  unfold filter_error. induction q as [|e q IH]; [reflexivity|].
  cbn [List.app last_error]. now rewrite IH.
Qed.

(** ** Counting *)

Lemma selected_two e1 e2 l :
  selected [e1; e2] l =
  filter (fun t => entry_matches t e2) (filter (fun t => entry_matches t e1) l).
Proof.
  unfold selected. induction l as [|t l IH]; [reflexivity|].
  cbn [filter]. unfold matches at 1. cbn [forallb]. rewrite andb_true_r.
  destruct (entry_matches t e1); cbn [andb filter].
  - destruct (entry_matches t e2); now rewrite IH.
  - exact IH.
Qed.

Lemma sold_is_eqb t b : entry_matches t (sold_is b) = Bool.eqb (sold t) b.
Proof. unfold sold_is; simpl. now destruct (sold t), b. Qed.

Lemma count_in_bucket month w r :
  List.length (selected [month_entry month; price_entry r] (docs w)) =
  count (bucket_count month w
           (PriceRange.range r, PriceRange.min r, upper_limit r)).
Proof.
  rewrite selected_two. unfold bucket_count, in_month; simpl. f_equal.
  apply filter_ext. intros t. apply price_entry_within.
Qed.

Lemma count_of_sold month w b :
  List.length (selected [month_entry month; sold_is b] (docs w)) =
  count_sold b (in_month month w).
Proof.
  rewrite selected_two. unfold count_sold, in_month. f_equal.
  apply filter_ext. intros t. apply sold_is_eqb.
Qed.

Lemma count_loop_quiet month d l w :
  new_Date (template month) = Some d ->
  quiet (List.length l) w ->
  count_loop month l w =
  (inr (count_entries month w l), after_calls (count_calls month l) w).
Proof.
  intros Hd. revert w. induction l as [|r l IH]; intros w Hw.
  - unfold count_loop; simpl. now rewrite after_calls_nil.
  - unfold count_loop in *. cbn [for_push map count_calls count_entries].
    unfold bind at 1. unfold bind at 1.
    rewrite countDocuments_eq
      by first [reflexivity | solve [(cbn [List.app]; now rewrite (filter_error_month month d))]].
    rewrite (quiet_next _ w Hw). unfold ret at 1. unfold bind at 1.
    rewrite IH by (apply (quiet_after [_]); exact Hw).
    unfold ret. cbn [List.app]. rewrite count_in_bucket.
    rewrite after_calls_app. reflexivity.
Qed.

Lemma count_loop_served month d l w :
  new_Date (template month) = Some d ->
  healthy w ->
  count_loop month l w =
  (inr (count_entries month w l), after_calls (count_calls month l) w).
Proof.
  intros Hd Hw. apply (count_loop_quiet month d); [exact Hd|].
  now apply healthy_quiet.
Qed.

Lemma count_loop_fails month d l n e w :
  new_Date (template month) = Some d ->
  fails_at n e w ->
  (n < List.length l)%nat ->
  exists w', count_loop month l w = (inl e, w').
Proof.
  intros Hd. revert n w. induction l as [|r l IH]; intros n w Hf Hn.
  - simpl in Hn. lia.
  - unfold count_loop in *. cbn [for_push].
    unfold bind at 1. unfold bind at 1.
    rewrite countDocuments_eq
      by first [reflexivity | solve [(cbn [List.app]; now rewrite (filter_error_month month d))]].
    destruct n as [|n].
    + rewrite (fails_at_0 _ _ Hf). eauto.
    + destruct (fails_at_S n e w Hf) as [Hnone Hf'].
      rewrite Hnone. unfold ret at 1. unfold bind at 1.
      edestruct (IH n) as [w' E]; [apply Hf' | simpl in Hn; lia |].
      rewrite E. eauto.
Qed.

Lemma count_loop_inv month l w res w' :
  count_loop month l w = (inr res, w') ->
  new_Date (template month) <> None \/ l = [].
Proof.
  intros H. destruct l as [|r l]; [now right|]. left. intros Hd.
  unfold count_loop in H. cbn [for_push] in H.
  unfold bind at 1 in H. unfold bind at 1 in H.
  rewrite rejected_countDocuments with (e := CastError "date") in H
    by (cbn [List.app]; now apply filter_error_month_invalid).
  discriminate.
Qed.

Lemma count_loop_result month d l w res w' :
  new_Date (template month) = Some d ->
  count_loop month l w = (inr res, w') ->
  res = count_entries month w l /\ w' = after_calls (count_calls month l) w.
Proof.
  intros Hd. revert w res w'. induction l as [|r l IH]; intros w res w' H.
  - unfold count_loop in H; simpl in H. inversion H; subst.
    now rewrite after_calls_nil.
  - unfold count_loop in *. cbn [for_push map count_calls count_entries] in *.
    unfold bind at 1 in H. unfold bind at 1 in H.
    rewrite countDocuments_eq in H
      by first [reflexivity | solve [(cbn [List.app]; now rewrite (filter_error_month month d))]].
    destruct (next_answer w); [discriminate|].
    unfold ret at 1 in H. unfold bind at 1 in H.
    destruct (for_push l _ (after_calls _ w)) as [[e|res'] w''] eqn:E;
      [discriminate|].
    apply IH in E. destruct E as [-> ->].
    unfold ret in H. inversion H; subst. cbn [List.app].
    rewrite count_in_bucket, after_calls_app. split; reflexivity.
Qed.

(** ** GET /barchart *)


Lemma barchart_unfold month :
  get_barchart month =
  (result <- count_loop month priceRanges ;; json (B_barchart result)).
Proof. reflexivity. Qed.

Lemma barchart_answer month w r w' :
  serve (get_barchart month) w = (Responded r, w') ->
  r = mkResponse 200 (B_barchart (map (bucket_count month w) buckets)) /\
  w' = after_calls (count_calls month priceRanges) w.
Proof.
  intros H.
  unfold serve in H. rewrite barchart_unfold in H. unfold bind in H.
  destruct (count_loop month priceRanges w) as [[e|res] w1] eqn:E;
    [discriminate|].
  destruct (count_loop_inv _ _ _ _ _ E) as [Hd|Hd]; [|discriminate].
  destruct (new_Date (template month)) as [d|] eqn:D; [|congruence].
  apply (count_loop_result month d) in E; [|exact D].
  destruct E as [-> ->]. unfold json, ret in H. cbv beta iota in H.
  injection H as <- <-. split; reflexivity.
Qed.


(** ** GET /statistics *)

(** The run of /statistics on an accepted month, call by call. *)
Lemma statistics_run month d w :
  new_Date (template month) = Some d ->
  fst (serve (get_statistics month) w) =
  match next_answer w with
  | Some e => UnhandledRejection e
  | None =>
      let w1 := after_calls [c_aggregate [month_entry month] id_null
                               (sum_path f_price)] w in
      match next_answer w1 with
      | Some e => UnhandledRejection e
      | None =>
          let w2 := after_calls [c_countDocuments
                                   [month_entry month; sold_is true]] w1 in
          match next_answer w2 with
          | Some e => UnhandledRejection e
          | None => Responded (statistics_answer month w)
          end
      end
  end.
Proof.
  intros D.
  assert (E1 : filter_error [month_entry month] = None)
    by now rewrite (filter_error_month month d).
  assert (E2 : forall b, filter_error ([month_entry month] ++ [sold_is b])
                         = None)
    by (intros b; cbn [List.app]; now rewrite (filter_error_month month d)).
  unfold serve, get_statistics.
  unfold bind at 1. rewrite aggregate_month_eq.
  destruct (next_answer w); [reflexivity|].
  unfold bind at 1. rewrite countDocuments_eq
      by first [reflexivity | solve [apply E2]].
  cbv zeta. cbn [List.app].
  destruct (next_answer _); [reflexivity|].
  unfold bind at 1. rewrite countDocuments_eq
      by first [reflexivity | solve [apply (E2 false)]].
  destruct (next_answer _); [reflexivity|].
  unfold json, ret, statistics_answer; simpl.
  cbn [List.app]. rewrite !count_of_sold, in_month_nil. reflexivity.
Qed.

Lemma statistics_inv month w r w' :
  serve (get_statistics month) w = (Responded r, w') ->
  r = statistics_answer month w.
Proof.
  intros H. destruct (new_Date (template month)) as [d|] eqn:D.
  - pose proof (statistics_run month d w D) as R.
    rewrite H in R; simpl in R.
    repeat (destruct (next_answer _); [discriminate|]). congruence.
  - unfold serve, get_statistics in H. unfold bind at 1 in H.
    rewrite aggregate_month_eq in H.
    destruct (next_answer w); [discriminate|].
    unfold bind at 1 in H. cbn [List.app] in H.
    rewrite rejected_countDocuments with (e := CastError "date") in H
      by (apply filter_error_month_invalid; [exact D | reflexivity]).
    discriminate.
Qed.


(** ** GET /transactions *)



Lemma transactions_unfold page perPage search month :
  get_transactions page perPage search month =
  (transactions <-
     find (transactions_query search month)
       (Some ((default 1 page - 1) * default 10 perPage)%Z)
       (Some (default 10%Z perPage)) ;;
   json (B_transactions transactions)).
Proof. reflexivity. Qed.

(** A search string makes a filter that does not cast. *)
Lemma transactions_query_search search month :
  truthy (default "" search) = true ->
  filter_error (transactions_query search month) = Some (CastError "number").
Proof.
  intros H. unfold transactions_query. rewrite H. apply filter_error_search.
Qed.

Lemma transactions_query_plain search month :
  truthy (default "" search) = false ->
  transactions_query search month = [month_entry month].
Proof. intros H. unfold transactions_query. now rewrite H. Qed.

Lemma page_listing_nil p k month w : page_listing p k month w = [].
Proof.
  unfold page_listing. now rewrite in_month_nil, skipn_nil, firstn_nil.
Qed.

(** An answer of /transactions: there was no search string, one find was
    made with the skip and the limit of the page, and the listing is the
    page. *)
Lemma transactions_inv_call page perPage search month w r w' :
  serve (get_transactions page perPage search month) w = (Responded r, w') ->
  r = mkResponse 200
        (B_transactions
           (page_listing (default 1%Z page) (default 10%Z perPage) month w)) /\
  truthy (default "" search) = false /\
  w' = after_calls
         [c_find [month_entry month]
            (Some ((default 1 page - 1) * default 10 perPage)%Z)
            (Some (default 10%Z perPage))] w.
Proof.
  intros H. unfold serve in H. rewrite transactions_unfold in H.
  unfold bind in H.
  destruct (truthy (default "" search)) eqn:T.
  - rewrite (rejected_find _ _ _ _ _ (transactions_query_search _ month T))
      in H.
    discriminate.
  - rewrite (transactions_query_plain _ month T) in H.
    destruct (filter_error [month_entry month]) as [e|] eqn:E.
    + rewrite (rejected_find _ _ _ e) in H by exact E. discriminate.
    + rewrite find_eq in H by first [reflexivity | exact E].
      destruct (next_answer w); [discriminate|].
      rewrite (selected_month _ _ month) in H by (simpl; auto).
      destruct (window _ _ []) as [e|found] eqn:W; [discriminate|].
      apply window_nil in W. subst found.
      unfold json, ret in H. injection H as <- <-.
      rewrite page_listing_nil. repeat split.
Qed.

Lemma transactions_inv page perPage search month w r w' :
  serve (get_transactions page perPage search month) w = (Responded r, w') ->
  r = mkResponse 200
        (B_transactions
           (page_listing (default 1%Z page) (default 10%Z perPage) month w)).
Proof. intros H. now apply transactions_inv_call in H. Qed.


(** ** GET /seed *)

Lemma seed_unfold :
  seed = try_catch seed_try (fun error => ret (failed error)).
Proof. reflexivity. Qed.

Lemma serve_seed w :
  serve seed w =
  match seed_try w with
  | (inr r, w') => (Responded r, w')
  | (inl e, w') => (Responded (failed e), w')
  end.
Proof.
  rewrite seed_unfold. unfold serve, try_catch.
  now destruct (seed_try w) as [[e|r] w'].
Qed.

Lemma deleteMany_all w :
  deleteMany [] w =
  match next_answer w with
  | Some e => (inl e, after_calls [c_deleteMany []] w)
  | None =>
      (inr tt,
       mkWorld [] (remote w) (tl (upcoming w)) (log w ++ [c_deleteMany []]))
  end.
Proof.
  unfold deleteMany. rewrite (bind_inr _ _ _ _ _ (check_accepts [] w eq_refl)).
  unfold bind at 1. rewrite call_eq.
  destruct (next_answer w); [reflexivity|].
  unfold bind, stored, store; simpl. do 2 f_equal.
  apply filter_none. reflexivity.
Qed.

Lemma save_item_eq item w :
  save_item item w =
  match new_Date (item_dateOfSale item) with
  | None => (inl (ValidationError library), w)
  | Some d =>
      let c := c_save (new_Transaction (item_title item)
                         (item_description item) (item_price item) (Some d)
                         (item_category item) (item_sold item)) in
      match next_answer w with
      | Some e => (inl e, after_calls [c] w)
      | None =>
          (inr tt,
           mkWorld
             (docs w ++ [mkTransaction (item_title item)
                           (item_description item) (item_price item) d
                           (item_category item) (item_sold item)])
             (remote w) (tl (upcoming w)) (log w ++ [c]))
      end
  end.
Proof.
  unfold save_item, save, new_Transaction; simpl.
  destruct (new_Date (item_dateOfSale item)) as [d|]; [|reflexivity].
  unfold bind at 1. rewrite call_eq.
  destruct (next_answer w); reflexivity.
Qed.

(** What the loop of /seed leaves when it ends without an exception. *)
Lemma for_of_save_inv data w w' :
  for_of data save_item w = (inr tt, w') ->
  exists new,
    Forall2 document_of data new /\
    docs w' = docs w ++ new /\ remote w' = remote w.
Proof.
  revert w. induction data as [|item data IH]; intros w H.
  - simpl in H. injection H as <-. exists []. split; [|split].
    + constructor.
    + now rewrite app_nil_r.
    + reflexivity.
  - cbn [for_of] in H. unfold bind in H. rewrite save_item_eq in H.
    destruct (new_Date (item_dateOfSale item)) as [d|] eqn:D; [|discriminate].
    cbv zeta in H. destruct (next_answer w); [discriminate|].
    apply IH in H. destruct H as (new & Hnew & Hdocs & Hremote).
    simpl in Hdocs, Hremote.
    exists (mkTransaction (item_title item) (item_description item)
              (item_price item) d (item_category item) (item_sold item)
            :: new).
    split; [|split].
    + constructor; [|exact Hnew]. repeat split; simpl; auto.
    + rewrite Hdocs, <- app_assoc. reflexivity.
    + exact Hremote.
Qed.

(** The loop ends when the dates are valid and the calls are served. *)
Lemma for_of_save_served data w :
  Forall valid_date data ->
  healthy w ->
  exists w', for_of data save_item w = (inr tt, w').
Proof.
  intros Hv. revert w. induction Hv as [|item data Hi Hv IH]; intros w Hw.
  - now exists w.
  - cbn [for_of]. unfold bind. rewrite save_item_eq.
    unfold valid_date in Hi.
    destruct (new_Date (item_dateOfSale item)) as [d|]; [|congruence].
    cbv zeta. rewrite (healthy_next w Hw). apply IH.
    unfold healthy in *; simpl. destruct (upcoming w); [constructor|].
    now inversion Hw.
Qed.

(** The loop fails with the exception of the first call that fails. *)
Lemma for_of_save_fails data n e w :
  fails_at n e w ->
  (n < List.length data)%nat ->
  Forall valid_date (firstn (S n) data) ->
  exists w', for_of data save_item w = (inl e, w').
Proof.
  revert n w. induction data as [|item data IH]; intros n w Hf Hn Hv.
  - simpl in Hn. lia.
  - cbn [for_of]. unfold bind. rewrite save_item_eq.
    cbn [firstn] in Hv. inversion Hv as [|? ? Hi Hv']; subst.
    unfold valid_date in Hi.
    destruct (new_Date (item_dateOfSale item)) as [d|]; [|congruence].
    cbv zeta. destruct n as [|n].
    + rewrite (fails_at_0 _ _ Hf). eauto.
    + destruct (fails_at_S n e w Hf) as [Hnone Hf'].
      rewrite Hnone. apply (IH n).
      * destruct (Hf' (c_deleteMany [])) as [rest Hr].
        exists rest. simpl in *. exact Hr.
      * simpl in Hn. lia.
      * exact Hv'.
Qed.

Lemma seed_try_inv w r w' :
  seed_try w = (inr r, w') ->
  r = seeded /\
  exists data, remote w apiUrl = inr data /\ Forall2 document_of data (docs w').
Proof.
  unfold seed_try. intros H. unfold bind at 1 in H. unfold axios_get in H.
  destruct (remote w apiUrl) as [e|data] eqn:R; [discriminate|].
  unfold bind at 1 in H. rewrite deleteMany_all in H.
  destruct (next_answer w); [discriminate|].
  unfold bind at 1 in H.
  destruct (for_of data save_item _) as [[e|[]] w1] eqn:F; [discriminate|].
  unfold json, ret in H. injection H as <- <-.
  split; [reflexivity|]. exists data. split; [reflexivity|].
  apply for_of_save_inv in F. destruct F as (new & Hnew & Hdocs & _).
  simpl in Hdocs. now rewrite Hdocs.
Qed.

(** C3: after /seed has answered with success, the collection holds one
    record per item of the remote array, in the order of the array and
    nothing else, each with the title, description, price, category and
    sold flag of its item and with the item's date parsed; and /seed does
    answer with success when the resource is fetched, every date in it is
    valid and the database serves the calls. *)
Theorem seed_replaces_the_records (w : World) :
  (forall r w',
      serve seed w = (Responded r, w') ->
      status r = 200%Z ->
      exists data,
        remote w apiUrl = inr data /\ Forall2 document_of data (docs w')) /\
  (forall data,
      remote w apiUrl = inr data ->
      Forall valid_date data ->
      healthy w ->
      exists w',
        serve seed w = (Responded seeded, w') /\
        Forall2 document_of data (docs w')).
Proof.
  split.
  - intros r w' H Hs. rewrite serve_seed in H.
    destruct (seed_try w) as [[e|r0] w0] eqn:E.
    + injection H as <- _. discriminate.
    + injection H as <- <-. now apply seed_try_inv in E.
  - intros data R Hv Hw.
    assert (E : exists w', seed_try w = (inr seeded, w')).
    { unfold seed_try. unfold bind at 1. unfold axios_get. rewrite R.
      unfold bind at 1. rewrite deleteMany_all, (healthy_next w Hw).
      unfold bind at 1.
      edestruct (for_of_save_served data) as [w1 F]; [exact Hv| |rewrite F].
      - unfold healthy in *; simpl. destruct (upcoming w); [constructor|].
        now inversion Hw.
      - unfold json, ret. eauto. }
    destruct E as [w' E]. exists w'. rewrite serve_seed, E.
    split; [reflexivity|].
    apply seed_try_inv in E. destruct E as (_ & data' & R' & Hdocs).
    rewrite R in R'. now injection R' as <-.
Qed.


(** ** Exceptions *)

(** One call of a handler: it fails when the database fails it, and is
    served otherwise, leaving the failure for a later call. *)
Ltac this_call_fails Hf := rewrite (fails_at_0 _ _ Hf); reflexivity.

Ltac next_call n Hf :=
  try match goal with
      | |- context [next_answer (after_calls [?c] _)] => specialize (Hf c)
      end;
  destruct n as [|n];
  [ this_call_fails Hf
  | let Hnone := fresh "Hnone" in
    let Hf' := fresh "Hf" in
    destruct (fails_at_S _ _ _ Hf) as [Hnone Hf']; rewrite Hnone;
    clear Hnone Hf; rename Hf' into Hf ].

Lemma transactions_escapes page perPage search month w e :
  accepted (GET_transactions page perPage search month) ->
  fails_at 0 e w ->
  fst (serve (get_transactions page perPage search month) w)
  = UnhandledRejection e.
Proof.
  intros [Hd Hs] Hf.
  destruct (new_Date (template month)) as [d|] eqn:D; [|congruence].
  unfold serve. rewrite transactions_unfold. unfold bind.
  rewrite (transactions_query_plain _ month Hs).
  rewrite find_eq
    by first [reflexivity | now rewrite (filter_error_month month d)].
  this_call_fails Hf.
Qed.

Lemma statistics_escapes month w n e :
  new_Date (template month) <> None ->
  fails_at n e w ->
  (n < 3)%nat ->
  fst (serve (get_statistics month) w) = UnhandledRejection e.
Proof.
  intros Hd Hf Hn.
  destruct (new_Date (template month)) as [d|] eqn:D; [|congruence].
  assert (E1 : filter_error [month_entry month] = None)
    by now rewrite (filter_error_month month d).
  assert (E2 : forall b, filter_error ([month_entry month] ++ [sold_is b])
                         = None)
    by (intros b; cbn [List.app]; now rewrite (filter_error_month month d)).
  unfold serve, get_statistics.
  unfold bind at 1. rewrite aggregate_month_eq. next_call n Hf.
  unfold bind at 1. rewrite countDocuments_eq
      by first [reflexivity | solve [apply E2]]. next_call n Hf.
  unfold bind at 1. rewrite countDocuments_eq
      by first [reflexivity | solve [apply E2]]. next_call n Hf.
  lia.
Qed.

Lemma barchart_escapes month w n e :
  new_Date (template month) <> None ->
  fails_at n e w ->
  (n < 10)%nat ->
  fst (serve (get_barchart month) w) = UnhandledRejection e.
Proof.
  intros Hd Hf Hn.
  destruct (new_Date (template month)) as [d|] eqn:D; [|congruence].
  destruct (count_loop_fails month d priceRanges n e w D Hf Hn) as [w' E].
  unfold serve. rewrite barchart_unfold. unfold bind. now rewrite E.
Qed.

Lemma piechart_escapes month w e :
  new_Date (template month) <> None ->
  fails_at 0 e w ->
  fst (serve (get_piechart month) w) = UnhandledRejection e.
Proof.
  intros Hd Hf.
  destruct (new_Date (template month)) as [d|] eqn:D; [|congruence].
  unfold serve, get_piechart. unfold bind.
  rewrite aggregate_month_eq.
  this_call_fails Hf.
Qed.

Lemma quiet_le k n w : quiet n w -> (k <= n)%nat -> quiet k w.
Proof. intros H Hk i Hi. apply H. lia. Qed.

Lemma alldata_escapes month w n e :
  accepted (GET_alldata month) ->
  fails_at n e w ->
  (n < 15)%nat ->
  fst (serve (get_alldata month) w) = UnhandledRejection e.
Proof.
  intros [Hd Hd'] Hf Hn.
  destruct (new_Date (template month)) as [d|] eqn:D; [|congruence].
  destruct (new_Date (template month ++ "-31T23:59:59.999Z")%string)
    as [d'|] eqn:D'; [|congruence].
  assert (E1 : filter_error [month_entry month] = None)
    by now rewrite (filter_error_month month d).
  assert (E2 : forall b, filter_error [month_entry_31 month; sold_is b] = None).
  { intros b. unfold filter_error, month_entry_31; simpl.
    unfold new_Date in *. now rewrite D, D'. }
  unfold serve, get_alldata.
  unfold bind at 1. rewrite find_eq
      by first [reflexivity | solve [exact E1]]. next_call n Hf.
  cbn [window].
  unfold bind at 1. rewrite aggregate_month_eq. next_call n Hf.
  unfold bind at 1. rewrite countDocuments_eq
      by first [reflexivity | solve [apply E2]]. next_call n Hf.
  unfold bind at 1. rewrite countDocuments_eq
      by first [reflexivity | solve [apply E2]]. next_call n Hf.
  unfold bind at 1.
  change (for_push priceRanges _) with (count_loop month priceRanges).
  match goal with
  | |- context [count_loop month priceRanges (after_calls [?c] ?w0)] =>
      specialize (Hf c); set (w4 := after_calls [c] w0) in *
  end.
  destruct (Nat.lt_ge_cases n 10) as [Hlt|Hge].
  - destruct (count_loop_fails month d priceRanges n e w4 D Hf Hlt) as [w' E].
    now rewrite E.
  - rewrite (count_loop_quiet month d)
      by first [ exact D
               | apply quiet_le with n;
                 [now apply fails_at_quiet with e | exact Hge] ].
    unfold bind at 1. rewrite aggregate_month_eq.
    replace n with (List.length (count_calls month priceRanges) + 0)%nat in Hf
      by (simpl; lia).
    apply fails_at_after in Hf. this_call_fails Hf.
Qed.

(** A search string is rejected while the filter is cast: nothing is
    sent. *)
Lemma transactions_search_rejected page perPage search month w :
  truthy (default "" search) = true ->
  serve (get_transactions page perPage search month) w
  = (UnhandledRejection (CastError "number"), w).
Proof.
  intros Hs. unfold serve. rewrite transactions_unfold. unfold bind.
  now rewrite (rejected_find _ _ _ _ _ (transactions_query_search _ month Hs)).
Qed.

(** An invalid month is rejected while the filter is cast, in the handlers
    that start with a find or a count. *)
Lemma transactions_month_rejected page perPage search month w :
  new_Date (template month) = None ->
  truthy (default "" search) = false ->
  serve (get_transactions page perPage search month) w
  = (UnhandledRejection (CastError "date"), w).
Proof.
  intros Hd Hs. unfold serve. rewrite transactions_unfold. unfold bind.
  rewrite (transactions_query_plain _ month Hs).
  rewrite rejected_find with (e := CastError "date"); [reflexivity|].
  now apply filter_error_month_invalid.
Qed.

Lemma barchart_month_rejected month w :
  new_Date (template month) = None ->
  serve (get_barchart month) w = (UnhandledRejection (CastError "date"), w).
Proof.
  intros Hd. unfold serve. rewrite barchart_unfold. unfold bind at 1.
  unfold count_loop. cbn [priceRanges for_push]. unfold bind at 1.
  unfold bind at 1.
  rewrite rejected_countDocuments with (e := CastError "date");
    [reflexivity|].
  cbn [List.app]. now apply filter_error_month_invalid.
Qed.

Lemma alldata_month_rejected month w :
  new_Date (template month) = None ->
  serve (get_alldata month) w = (UnhandledRejection (CastError "date"), w).
Proof.
  intros Hd. unfold serve, get_alldata. unfold bind at 1.
  rewrite rejected_find with (e := CastError "date"); [reflexivity|].
  now apply filter_error_month_invalid.
Qed.

(** In /statistics the aggregate, which is not cast, goes first: the month
    is rejected by the count that follows. *)
Lemma statistics_month_rejected month w :
  new_Date (template month) = None ->
  next_answer w = None ->
  serve (get_statistics month) w
  = (UnhandledRejection (CastError "date"),
     after_calls [c_aggregate [month_entry month] id_null (sum_path f_price)]
       w).
Proof.
  intros Hd Hn. unfold serve, get_statistics. unfold bind at 1.
  rewrite aggregate_month_eq, Hn. unfold bind at 1. cbn [List.app].
  rewrite rejected_countDocuments with (e := CastError "date");
    [reflexivity|].
  now apply filter_error_month_invalid.
Qed.

Lemma seed_write_fails w data n e :
  remote w apiUrl = inr data ->
  fails_at n e w ->
  (n <= List.length data)%nat ->
  Forall valid_date (firstn n data) ->
  fst (serve seed w) = Responded (failed e).
Proof.
  intros R Hf Hn Hv. rewrite serve_seed. unfold seed_try.
  unfold bind at 1. unfold axios_get. rewrite R.
  unfold bind at 1. rewrite deleteMany_all.
  destruct n as [|n].
  - now rewrite (fails_at_0 _ _ Hf).
  - destruct (fails_at_S _ _ _ Hf) as [Hnone Hf']. rewrite Hnone.
    unfold bind at 1.
    edestruct (for_of_save_fails data n e) as [w' E];
      [| | exact Hv | rewrite E; reflexivity].
    + destruct (Hf' (c_deleteMany [])) as [rest Hr]. exists rest. exact Hr.
    + lia.
Qed.

(** C4: /seed answers every request: an exception raised under its [try],
    by the fetch or by a write to the database, ends in the status 500
    with the message of the exception.  The five other handlers catch
    nothing: a call that the database fails ends in an unhandled rejection
    with that exception, and so does a filter that is rejected while it is
    cast, for a search string or for an invalid month. *)
Theorem only_seed_catches :
  (forall w e w',
      seed_try w = (inl e, w') ->
      serve seed w = (Responded (failed e), w')) /\
  (forall w, exists r, fst (serve seed w) = Responded r) /\
  (forall w e,
      remote w apiUrl = inl e ->
      fst (serve seed w) = Responded (failed e)) /\
  (forall w data n e,
      remote w apiUrl = inr data ->
      fails_at n e w ->
      (n <= List.length data)%nat ->
      Forall valid_date (firstn n data) ->
      fst (serve seed w) = Responded (failed e)) /\
  (forall r w n e,
      is_query r = true ->
      accepted r ->
      fails_at n e w ->
      (n < calls_of r)%nat ->
      fst (serve (app r) w) = UnhandledRejection e) /\
  (forall page perPage search month w,
      truthy (default "" search) = true ->
      exists e,
        serve (get_transactions page perPage search month) w
        = (UnhandledRejection e, w) /\
        name e = "CastError") /\
  (forall page perPage search month w,
      new_Date (template month) = None ->
      truthy (default "" search) = false ->
      serve (get_transactions page perPage search month) w
      = (UnhandledRejection (CastError "date"), w)) /\
  (forall month w,
      new_Date (template month) = None ->
      serve (get_barchart month) w
      = (UnhandledRejection (CastError "date"), w) /\
      serve (get_alldata month) w
      = (UnhandledRejection (CastError "date"), w)) /\
  (forall month w,
      new_Date (template month) = None ->
      next_answer w = None ->
      fst (serve (get_statistics month) w)
      = UnhandledRejection (CastError "date")).
Proof.
  split; [|split; [|split; [|split; [|split; [|split; [|split; [|split]]]]]]].
  - intros w e w' H. now rewrite serve_seed, H.
  - intros w. rewrite serve_seed.
    destruct (seed_try w) as [[e|r] w']; simpl; eauto.
  - intros w e R. rewrite serve_seed. unfold seed_try.
    unfold bind at 1. unfold axios_get. now rewrite R.
  - intros w data n e. apply seed_write_fails.
  - intros r w n e Hq Ha Hf Hn.
    destruct r as [|page perPage search month|month|month|month|month];
      simpl in Hq, Hn; try discriminate; unfold app.
    + replace n with 0%nat in Hf by lia. now apply transactions_escapes.
    + now apply statistics_escapes with n.
    + now apply barchart_escapes with n.
    + replace n with 0%nat in Hf by lia. now apply piechart_escapes.
    + now apply alldata_escapes with n.
  - intros page perPage search month w Hs. exists (CastError "number").
    split; [now apply transactions_search_rejected | reflexivity].
  - intros page perPage search month w. apply transactions_month_rejected.
  - intros month w Hd. split;
      [now apply barchart_month_rejected | now apply alldata_month_rejected].
  - intros month w Hd Hn. now rewrite statistics_month_rejected.
Qed.

(** ** GET /alldata *)

Lemma alldata_inv month w r w' :
  serve (get_alldata month) w = (Responded r, w') ->
  r = alldata_answer month w.
Proof.
  intros H. unfold serve in H.
  destruct (new_Date (template month)) as [d|] eqn:D.
  - assert (E1 : filter_error [month_entry month] = None)
      by now rewrite (filter_error_month month d).
    unfold get_alldata in H.
    unfold bind at 1 in H. rewrite find_eq in H
      by first [reflexivity | solve [exact E1]].
    destruct (next_answer w); [discriminate|]. cbn [window] in H.
    unfold bind at 1 in H. rewrite aggregate_month_eq in H.
    destruct (next_answer _); [discriminate|].
    unfold bind at 1 in H.
    destruct (filter_error [month_entry_31 month; sold_is true]) eqn:E2;
      [rewrite (rejected_countDocuments _ _ _ E2) in H; discriminate|].
    rewrite countDocuments_eq in H
      by first [reflexivity | solve [exact E2]].
    destruct (next_answer _); [discriminate|].
    unfold bind at 1 in H.
    destruct (filter_error [month_entry_31 month; sold_is false]) eqn:E3;
      [rewrite (rejected_countDocuments _ _ _ E3) in H; discriminate|].
    rewrite countDocuments_eq in H
      by first [reflexivity | solve [exact E3]].
    destruct (next_answer _); [discriminate|].
    unfold bind at 1 in H.
    change (for_push priceRanges _) with (count_loop month priceRanges) in H.
    destruct (count_loop month priceRanges _) as [[e|res] w1] eqn:E;
      [discriminate|].
    apply (count_loop_result month d) in E; [|exact D].
    destruct E as [-> ->].
    unfold bind at 1 in H. rewrite aggregate_month_eq in H.
    destruct (next_answer _); [discriminate|].
    unfold json, ret in H. cbv beta iota in H. injection H as <- _.
    cbn [docs after_calls].
    rewrite !(selected_month [month_entry month] _ month) by (simpl; auto).
    reflexivity.
  - unfold get_alldata in H. unfold bind at 1 in H.
    rewrite rejected_find with (e := CastError "date") in H
      by now apply filter_error_month_invalid.
    discriminate.
Qed.

Lemma alldata_served month w :
  accepted (GET_alldata month) ->
  healthy w ->
  fst (serve (get_alldata month) w) = Responded (alldata_answer month w).
Proof.
  intros [Hd Hd'] Hw.
  destruct (serve (get_alldata month) w) as [[r|e] w'] eqn:S.
  - apply alldata_inv in S. now subst.
  - exfalso. revert S.
    destruct (new_Date (template month)) as [d|] eqn:D; [|congruence].
    destruct (new_Date (template month ++ "-31T23:59:59.999Z")%string)
      as [d'|] eqn:D'; [|congruence].
    assert (E1 : filter_error [month_entry month] = None)
      by now rewrite (filter_error_month month d).
    assert (E2 : forall b,
               filter_error [month_entry_31 month; sold_is b] = None).
    { intros b. unfold filter_error, month_entry_31; simpl.
      unfold new_Date in *. now rewrite D, D'. }
    unfold serve, get_alldata.
    unfold bind at 1. rewrite find_eq
      by first [reflexivity | solve [exact E1]].
    rewrite (healthy_next w Hw). cbn [window].
    unfold bind at 1. rewrite aggregate_month_eq.
    rewrite healthy_next by (repeat apply healthy_after; exact Hw).
    unfold bind at 1. rewrite countDocuments_eq
      by first [reflexivity | solve [apply E2]].
    rewrite healthy_next by (repeat apply healthy_after; exact Hw).
    unfold bind at 1. rewrite countDocuments_eq
      by first [reflexivity | solve [apply E2]].
    rewrite healthy_next by (repeat apply healthy_after; exact Hw).
    unfold bind at 1.
    change (for_push priceRanges _) with (count_loop month priceRanges).
    rewrite (count_loop_served month d)
      by first [exact D | repeat apply healthy_after; exact Hw].
    unfold bind at 1. rewrite aggregate_month_eq.
    rewrite healthy_next by (repeat apply healthy_after; exact Hw).
    discriminate.
Qed.

Lemma piechart_inv month w r w' :
  serve (get_piechart month) w = (Responded r, w') ->
  r = mkResponse 200 (B_piechart []).
Proof.
  intros H. unfold serve, get_piechart in H. unfold bind in H.
  rewrite aggregate_month_eq in H.
  destruct (next_answer w); [discriminate|].
  unfold json, ret in H. now injection H as <- _.
Qed.

(** X16: where /alldata is the composite of the four: the listing, the total
    sale amount, the bar chart and the pie chart are those of the four
    handlers, whenever they answer.  The two counts of sold and unsold
    items are left out: /alldata counts them under another filter. *)
Lemma alldata_agrees_elsewhere month w a wa :
  serve (get_alldata month) w = (Responded (mkResponse 200 (B_alldata a)), wa) ->
  (forall r w',
      serve (get_transactions None None None month) w = (Responded r, w') ->
      body r = B_transactions (transactions a)) /\
  (forall r w',
      serve (get_statistics month) w = (Responded r, w') ->
      exists s,
        body r = B_statistics s /\
        totalSaleAmount s = totalSaleAmount (statistics a)) /\
  (forall r w',
      serve (get_barchart month) w = (Responded r, w') ->
      body r = B_barchart (barChart a)) /\
  (forall r w',
      serve (get_piechart month) w = (Responded r, w') ->
      body r = B_piechart (pieChart a)).
Proof.
  intros H. apply alldata_inv in H. unfold alldata_answer in H.
  injection H as ->. cbn [transactions statistics barChart pieChart].
  split; [|split; [|split]]; intros r w' Hr.
  - apply transactions_inv in Hr. subst r. cbn [body].
    now rewrite page_listing_nil.
  - apply statistics_inv in Hr. subst r. eexists. split; [reflexivity|].
    cbn [totalSaleAmount]. now rewrite in_month_nil.
  - apply barchart_answer in Hr. destruct Hr as [-> _]. reflexivity.
  - apply piechart_inv in Hr. now subst r.
Qed.

(** ** The price ranges *)

Lemma gap_in_no_bucket p b :
  in_gap p -> In b buckets ->
  within (snd (fst b)) (snd b) p = false.
Proof.
  intros Hp Hb. unfold within.
  assert (L : forall lo, (p < lo)%Q -> Qle_bool lo p = false).
  { intros lo Hlt. destruct (Qle_bool lo p) eqn:E; [|reflexivity].
    apply Qle_bool_iff in E. exfalso. now apply (Qlt_not_le p lo). }
  assert (U : forall hi, (hi <= p)%Q -> negb (Qle_bool hi p) = false).
  { intros hi Hle. apply Qle_bool_iff in Hle. now rewrite Hle. }
  assert (Below : forall lo hi, (p < lo)%Q ->
             Qle_bool lo p && negb (Qle_bool hi p) = false).
  { intros lo hi Hlt. now rewrite (L lo Hlt). }
  assert (Above : forall lo hi, (hi <= p)%Q ->
             Qle_bool lo p && negb (Qle_bool hi p) = false).
  { intros lo hi Hle. rewrite (U hi Hle). apply andb_false_r. }
  destruct Hp as [Hneg | (k & Hk & Hlo & Hhi)].
  - assert (H : forall lo, (0 <= lo)%Q -> (p < lo)%Q).
    { intros lo Hlo. apply Qlt_le_trans with 0%Q; assumption. }
    simpl in Hb.
    repeat (destruct Hb as [<- | Hb]; [apply Below, H; discriminate|]).
    contradiction.
  - assert (Hup : forall z, (z <= 100 * k)%Z -> (inject_Z z <= p)%Q).
    { intros z Hz. apply Qle_trans with (inject_Z (100 * k)); [|exact Hlo].
      now rewrite <- Zle_Qle. }
    assert (Hdn : forall z, (100 * k + 1 <= z)%Z -> (p < inject_Z z)%Q).
    { intros z Hz. apply Qlt_le_trans with (inject_Z (100 * k + 1));
        [exact Hhi|]. now rewrite <- Zle_Qle. }
    assert (Hk' : (k = 1 \/ k = 2 \/ k = 3 \/ k = 4 \/ k = 5 \/ k = 6 \/
                   k = 7 \/ k = 8 \/ k = 9)%Z) by lia.
    simpl in Hb.
    repeat (destruct Hb as [<- | Hb];
            [ cbn [fst snd];
              repeat (destruct Hk' as [-> | Hk']);
              try subst k;
              first [ apply (Above _ (inject_Z _)), Hup; lia
                    | apply (Below (inject_Z _)), Hdn; lia ] |]).
    contradiction.
Qed.

(** C9, as the code has it: a negative price, or a price from 100 up to
    101, from 200 up to 201, and so on to 900 up to 901, is in none of the
    ten buckets; yet, as no record is in the month filter, the counts that
    /barchart and /alldata answer are all 0 and their sum is the number of
    records in the month filter. *)
Theorem buckets_leave_gaps (month : option string) (w : World) :
  (forall p b,
      in_gap p -> In b buckets -> within (snd (fst b)) (snd b) p = false) /\
  (forall r w',
      serve (get_barchart month) w = (Responded r, w') ->
      exists entries,
        body r = B_barchart entries /\
        Forall (fun entry => count entry = 0%nat) entries /\
        sum_counts entries = List.length (in_month month w)) /\
  (forall r w',
      serve (get_alldata month) w = (Responded r, w') ->
      exists a,
        body r = B_alldata a /\
        Forall (fun entry => count entry = 0%nat) (barChart a) /\
        sum_counts (barChart a) = List.length (in_month month w)).
Proof.
  assert (Z : Forall (fun entry => count entry = 0%nat)
                (map (bucket_count month w) buckets) /\
              sum_counts (map (bucket_count month w) buckets) =
              List.length (in_month month w)).
  { unfold bucket_count. rewrite in_month_nil. simpl.
    split; [repeat constructor | reflexivity]. }
  split; [|split].
  - intros p b. apply gap_in_no_bucket.
  - intros r w' H.
    destruct (barchart_answer month w r w' H) as [-> _].
    eexists. split; [reflexivity | exact Z].
  - intros r w' H. apply alldata_inv in H. subst r.
    eexists. split; [reflexivity | exact Z].
Qed.

(** ** More on GET /seed *)

Lemma quiet_tail k w w1 :
  quiet (S k) w -> upcoming w1 = tl (upcoming w) -> quiet k w1.
Proof.
  intros H E i Hi. rewrite E. specialize (H (S i)).
  destruct (upcoming w) as [|o u]; simpl in *.
  - now destruct i.
  - apply H. lia.
Qed.

Lemma healthy_skipn n w w1 :
  healthy w -> upcoming w1 = skipn n (upcoming w) -> healthy w1.
Proof.
  unfold healthy. intros H E. rewrite E. clear E. revert n.
  induction H as [|o u Ho Hu IH]; intros [|n]; simpl; auto.
Qed.

Lemma document_of_item item d :
  new_Date (item_dateOfSale item) = Some d ->
  document_of item
    (mkTransaction (item_title item) (item_description item)
       (item_price item) d (item_category item) (item_sold item)).
Proof. intros H. repeat split; simpl; auto. Qed.

(** An item has one record. *)
Lemma document_of_unique data l l' :
  Forall2 document_of data l -> Forall2 document_of data l' -> l = l'.
Proof.
  intros H. revert l'. induction H as [|item t data l Ht _ IH]; intros l' H'.
  - now inversion H'.
  - inversion H' as [|? t' ? l'' Ht' Hl']; subst. f_equal; [|now apply IH].
    destruct Ht as (H1 & H2 & H3 & H4 & H5 & H6).
    destruct Ht' as (H1' & H2' & H3' & H4' & H5' & H6').
    destruct t, t'; simpl in *. rewrite H4 in H4'. injection H4' as ->.
    congruence.
Qed.

(** The calls the loop of /seed has made when it ends without an
    exception. *)
Lemma for_of_save_calls data w w' :
  for_of data save_item w = (inr tt, w') ->
  log w' = log w ++ map (fun item => c_save (draft_of item)) data /\
  upcoming w' = skipn (List.length data) (upcoming w).
Proof.
  revert w. induction data as [|item data IH]; intros w H.
  - simpl in H. injection H as <-. simpl. now rewrite app_nil_r.
  - cbn [for_of] in H. unfold bind in H. rewrite save_item_eq in H.
    destruct (new_Date (item_dateOfSale item)) as [d|] eqn:D; [|discriminate].
    cbv zeta in H. destruct (next_answer w); [discriminate|].
    apply IH in H. destruct H as [Hlog Hup]. simpl in Hlog, Hup.
    split.
    + rewrite Hlog, <- app_assoc. cbn [map List.app].
      unfold draft_of. now rewrite D.
    + rewrite Hup. destruct (upcoming w); simpl;
        [now rewrite skipn_nil | reflexivity].
Qed.

(** The loop stops at the save that the database fails, with the records
    of the items before it stored. *)
Lemma for_of_save_fails_docs data n e w :
  fails_at n e w ->
  (n < List.length data)%nat ->
  Forall valid_date (firstn (S n) data) ->
  exists w' new,
    for_of data save_item w = (inl e, w') /\
    Forall2 document_of (firstn n data) new /\
    docs w' = docs w ++ new.
Proof.
  revert n w. induction data as [|item data IH]; intros n w Hf Hn Hv.
  - simpl in Hn. lia.
  - cbn [for_of]. unfold bind. rewrite save_item_eq.
    cbn [firstn] in Hv. inversion Hv as [|? ? Hi Hv']; subst.
    unfold valid_date in Hi.
    destruct (new_Date (item_dateOfSale item)) as [d|] eqn:D; [|congruence].
    cbv zeta. destruct n as [|n].
    + rewrite (fails_at_0 _ _ Hf). eexists. exists []. simpl.
      split; [reflexivity|]. split; [constructor | now rewrite app_nil_r].
    + destruct (fails_at_S n e w Hf) as [Hnone Hf']. rewrite Hnone.
      match goal with
      | |- context [for_of data save_item ?w1] =>
          destruct (IH n w1) as (w' & new & E & Hnew & Hdocs);
            [| | exact Hv' |]
      end.
      * destruct (Hf' (c_deleteMany [])) as [rest Hr].
        exists rest. simpl in *. exact Hr.
      * simpl in Hn. lia.
      * rewrite E. eexists. eexists (_ :: new). split; [reflexivity|].
        simpl in Hdocs. rewrite Hdocs, <- app_assoc. cbn [firstn].
        split; [|reflexivity].
        constructor; [now apply document_of_item | exact Hnew].
Qed.

(** The loop stops at the item whose date does not parse, with the records
    of the items before it stored. *)
Lemma for_of_save_undated data k item w :
  quiet k w ->
  nth_error data k = Some item ->
  new_Date (item_dateOfSale item) = None ->
  Forall valid_date (firstn k data) ->
  exists w' new,
    for_of data save_item w = (inl (ValidationError library), w') /\
    Forall2 document_of (firstn k data) new /\
    docs w' = docs w ++ new.
Proof.
  revert k w. induction data as [|x data IH]; intros k w Hq Hk Hd Hv.
  - now destruct k.
  - cbn [for_of]. unfold bind. rewrite save_item_eq. destruct k as [|k].
    + simpl in Hk. injection Hk as ->. rewrite Hd.
      eexists. exists []. simpl.
      split; [reflexivity|]. split; [constructor | now rewrite app_nil_r].
    + cbn [firstn] in Hv. inversion Hv as [|? ? Hi Hv']; subst.
      unfold valid_date in Hi.
      destruct (new_Date (item_dateOfSale x)) as [d|] eqn:D; [|congruence].
      cbv zeta. rewrite (quiet_next _ _ Hq).
      match goal with
      | |- context [for_of data save_item ?w1] =>
          destruct (IH k w1) as (w' & new & E & Hnew & Hdocs);
            [| exact Hk | exact Hd | exact Hv' |]
      end.
      * eapply quiet_tail; [exact Hq | reflexivity].
      * rewrite E. eexists. eexists (_ :: new). split; [reflexivity|].
        simpl in Hdocs. rewrite Hdocs, <- app_assoc. cbn [firstn].
        split; [|reflexivity].
        constructor; [now apply document_of_item | exact Hnew].
Qed.

Lemma seed_try_after_delete w data :
  remote w apiUrl = inr data ->
  next_answer w = None ->
  seed_try w =
  match for_of data save_item
          (mkWorld [] (remote w) (tl (upcoming w))
             (log w ++ [c_deleteMany []])) with
  | (inl e, w') => (inl e, w')
  | (inr _, w') => (inr seeded, w')
  end.
Proof.
  intros R Hn. unfold seed_try.
  unfold bind at 1. unfold axios_get. rewrite R.
  unfold bind at 1. rewrite deleteMany_all, Hn.
  unfold bind at 1. now destruct (for_of data save_item _) as [[e|[]] w'].
Qed.

(** X1: when the fetch fails, /seed answers 500 and the world is as it was:
    no call reaches the database.  When the fetch works and the database
    fails the bulk delete, /seed answers 500 after that one call and the
    stored records are as they were. *)
Theorem seed_failure_before_the_writes (w : World) (e : Exn) :
  (remote w apiUrl = inl e ->
   serve seed w = (Responded (failed e), w)) /\
  (forall data,
      remote w apiUrl = inr data ->
      next_answer w = Some e ->
      serve seed w = (Responded (failed e), after_calls [c_deleteMany []] w) /\
      docs (snd (serve seed w)) = docs w).
Proof.
  split.
  - intros R. rewrite serve_seed. unfold seed_try.
    unfold bind at 1. unfold axios_get. now rewrite R.
  - intros data R Hn.
    assert (E : serve seed w =
                (Responded (failed e), after_calls [c_deleteMany []] w)).
    { rewrite serve_seed. unfold seed_try.
      unfold bind at 1. unfold axios_get. rewrite R.
      unfold bind at 1. now rewrite deleteMany_all, Hn. }
    split; [exact E | now rewrite E].
Qed.

(** X2: /seed is not all-or-nothing.  When the database serves the bulk
    delete and the saves of the first [k] items and fails the next save,
    /seed answers 500 with that exception and the collection holds the
    records of the first [k] items and nothing else: the records stored
    before are gone and the later items are not stored. *)
Theorem seed_stops_at_a_failed_save (w : World) (data : list Item)
    (k : nat) (e : Exn) :
  remote w apiUrl = inr data ->
  fails_at (S k) e w ->
  (k < List.length data)%nat ->
  Forall valid_date (firstn (S k) data) ->
  exists w',
    serve seed w = (Responded (failed e), w') /\
    Forall2 document_of (firstn k data) (docs w').
Proof.
  intros R Hf Hk Hv.
  destruct (fails_at_S _ _ _ Hf) as [Hnone Hf'].
  rewrite serve_seed, (seed_try_after_delete w data R Hnone).
  match goal with
  | |- context [for_of data save_item ?w1] =>
      destruct (for_of_save_fails_docs data k e w1)
        as (w' & new & E & Hnew & Hdocs); [| exact Hk | exact Hv |]
  end.
  - destruct (Hf' (c_deleteMany [])) as [rest Hr]. exists rest. exact Hr.
  - rewrite E. exists w'. split; [reflexivity|].
    simpl in Hdocs. now rewrite Hdocs.
Qed.

(** X3: an item whose date does not parse stops /seed in the same way.
    When the items before it have valid dates and the database serves the
    calls up to it, /seed answers 500 with the validation error and the
    collection holds the records of the items before it and nothing
    else. *)
Theorem seed_stops_at_an_undated_item (w : World) (data : list Item)
    (k : nat) (item : Item) :
  remote w apiUrl = inr data ->
  quiet (S k) w ->
  nth_error data k = Some item ->
  new_Date (item_dateOfSale item) = None ->
  Forall valid_date (firstn k data) ->
  exists w',
    serve seed w
    = (Responded (failed (ValidationError library)), w') /\
    Forall2 document_of (firstn k data) (docs w').
Proof.
  intros R Hq Hk Hd Hv.
  rewrite serve_seed, (seed_try_after_delete w data R (quiet_next _ _ Hq)).
  match goal with
  | |- context [for_of data save_item ?w1] =>
      destruct (for_of_save_undated data k item w1)
        as (w' & new & E & Hnew & Hdocs); [| exact Hk | exact Hd | exact Hv |]
  end.
  - eapply quiet_tail; [exact Hq | reflexivity].
  - rewrite E. exists w'. split; [reflexivity|].
    simpl in Hdocs. now rewrite Hdocs.
Qed.

(** X5: a seeding that answers with success has made one bulk delete with
    the empty filter and then one save per item of the array, in the order
    of the array, and no other call; it has left the remote resource as it
    was. *)
Theorem seed_calls_on_success (w w' : World) (r : Response) :
  serve seed w = (Responded r, w') ->
  status r = 200%Z ->
  exists data,
    remote w apiUrl = inr data /\
    log w' = log w ++ seed_calls data /\
    upcoming w' = skipn (S (List.length data)) (upcoming w) /\
    remote w' = remote w.
Proof.
  intros H Hs. rewrite serve_seed in H.
  destruct (seed_try w) as [[e|r0] w0] eqn:E.
  - injection H as <- _. discriminate.
  - injection H as _ <-. clear Hs r. unfold seed_try in E.
    unfold bind at 1 in E. unfold axios_get in E.
    destruct (remote w apiUrl) as [e|data] eqn:R; [discriminate|].
    unfold bind at 1 in E. rewrite deleteMany_all in E.
    destruct (next_answer w); [discriminate|].
    unfold bind at 1 in E.
    destruct (for_of data save_item _) as [[e|[]] w1] eqn:F; [discriminate|].
    unfold json, ret in E. injection E as _ <-.
    exists data. split; [reflexivity|].
    destruct (for_of_save_calls _ _ _ F) as [Hlog Hup].
    destruct (for_of_save_inv _ _ _ F) as (_ & _ & _ & Hremote).
    simpl in Hlog, Hup, Hremote. split; [|split].
    + rewrite Hlog, <- app_assoc. reflexivity.
    + rewrite Hup. destruct (upcoming w); simpl;
        [now rewrite skipn_nil | reflexivity].
    + exact Hremote.
Qed.

Lemma seed_success w data :
  remote w apiUrl = inr data ->
  Forall valid_date data ->
  healthy w ->
  exists w',
    serve seed w = (Responded seeded, w') /\
    Forall2 document_of data (docs w') /\
    remote w' = remote w /\ healthy w'.
Proof.
  intros R Hv Hw.
  rewrite serve_seed, (seed_try_after_delete w data R (healthy_next w Hw)).
  match goal with
  | |- context [for_of data save_item ?w1] =>
      destruct (for_of_save_served data w1) as [w' F]; [exact Hv | |]
  end.
  - apply (healthy_skipn 1 w); [exact Hw | reflexivity].
  - rewrite F. exists w'. split; [reflexivity|].
    destruct (for_of_save_inv _ _ _ F) as (new & Hnew & Hdocs & Hremote).
    destruct (for_of_save_calls _ _ _ F) as [_ Hup].
    simpl in Hdocs, Hremote, Hup. rewrite Hdocs. split; [exact Hnew|].
    split; [exact Hremote|].
    apply (healthy_skipn (S (List.length data)) w); [exact Hw|].
    rewrite Hup. destruct (upcoming w); simpl;
      [now rewrite skipn_nil | reflexivity].
Qed.

(** X4: seeding again changes nothing.  When the resource is fetched, its
    dates are valid and the database serves the calls, a second /seed
    after the first answers with success as well and leaves the collection
    that the first one left. *)
Theorem seed_twice_is_seed_once (w : World) (data : list Item) :
  remote w apiUrl = inr data ->
  Forall valid_date data ->
  healthy w ->
  exists w1 w2,
    serve seed w = (Responded seeded, w1) /\
    serve seed w1 = (Responded seeded, w2) /\
    docs w2 = docs w1.
Proof.
  intros R Hv Hw.
  destruct (seed_success w data R Hv Hw) as (w1 & E1 & D1 & R1 & H1).
  assert (R' : remote w1 apiUrl = inr data) by now rewrite R1.
  destruct (seed_success w1 data R' Hv H1) as (w2 & E2 & D2 & _ & _).
  exists w1, w2. split; [exact E1|]. split; [exact E2|].
  now apply document_of_unique with data.
Qed.

(** ** What the query handlers answer *)

(** X6: /transactions never lists a record.  Whatever the page, the page
    size, the search string, the month and the stored records, an answer
    of /transactions is the empty list with status 200. *)
Theorem transactions_always_empty (page perPage : option Z)
    (search month : option string) (w w' : World) (r : Response) :
  serve (get_transactions page perPage search month) w = (Responded r, w') ->
  r = mkResponse 200 (B_transactions []).
Proof.
  intros H. apply transactions_inv in H. now rewrite page_listing_nil in H.
Qed.

(** X7: /statistics never reports a sale.  Whatever the month and the
    stored records, an answer of /statistics is the total 0 with 0 sold and
    0 unsold items. *)
Theorem statistics_always_zero (month : option string) (w w' : World)
    (r : Response) :
  serve (get_statistics month) w = (Responded r, w') ->
  r = mkResponse 200 (B_statistics (mkStatistics 0 0 0)).
Proof.
  intros H. apply statistics_inv in H. subst r.
  unfold statistics_answer. now rewrite in_month_nil.
Qed.

(** X8: /piechart answers no category.  An answer of /piechart is the
    empty list; and when the month is a valid date and the database serves
    the next call, /piechart does answer, after one aggregate call. *)
Theorem piechart_always_empty (month : option string) (w : World) :
  (forall r w',
      serve (get_piechart month) w = (Responded r, w') ->
      r = mkResponse 200 (B_piechart [])) /\
  (new_Date (template month) <> None ->
   next_answer w = None ->
   serve (get_piechart month) w =
   (Responded (mkResponse 200 (B_piechart [])),
    after_calls [c_aggregate [month_entry month] (id_path f_category)
                   (sum_const 1)] w)).
Proof.
  split.
  - intros r w'. apply piechart_inv.
  - intros Hd Hn.
    destruct (new_Date (template month)) as [d|] eqn:D; [|congruence].
    unfold serve, get_piechart. unfold bind.
    rewrite aggregate_month_eq.
    rewrite Hn. reflexivity.
Qed.

(** X9: the status 500 comes from /seed alone.  Every answer of the five
    query handlers has status 200, and an answer of /seed has status 200
    or is the status 500 with an error message. *)
Theorem only_seed_answers_500 (req : Request) (w w' : World) (r : Response) :
  serve (app req) w = (Responded r, w') ->
  status r = 200%Z \/
  (req = GET_seed /\ exists e, r = mkResponse 500 (B_error (message e))).
Proof.
  intros H.
  destruct req as [|page perPage search month|month|month|month|month];
    unfold app in H.
  - rewrite serve_seed in H.
    destruct (seed_try w) as [[e|r0] w0] eqn:E.
    + right. split; [reflexivity|]. exists e. now injection H as <- _.
    + left. apply seed_try_inv in E. destruct E as [-> _].
      now injection H as <- _.
  - left. apply transactions_inv in H. now subst r.
  - left. apply statistics_inv in H. now subst r.
  - left. apply barchart_answer in H. now destruct H as [-> _].
  - left. apply piechart_inv in H. now subst r.
  - left. apply alldata_inv in H. now subst r.
Qed.


(** X11: the query handlers only read.  Whatever the database answers, a
    request to /transactions, /statistics, /barchart, /piechart or /alldata
    makes find, count and aggregate calls only, never a delete or a save,
    and leaves the stored records and the remote resource as they were. *)
Theorem query_handlers_only_read (req : Request) :
  is_query req = true ->
  reads_only is_read (app req).
Proof.
  intros Hq.
  destruct req as [|page perPage search month|month|month|month|month];
    simpl in Hq; try discriminate; unfold app.
  - unfold get_transactions, json. reads. exact I.
  - unfold get_statistics, json. reads; exact I.
  - unfold get_barchart, json. reads; exact I.
  - unfold get_piechart, json. reads; exact I.
  - unfold get_alldata, json. reads; exact I.
Qed.

(** ** More on GET /alldata *)

Lemma month_entry_31_between month d d31 b t :
  new_Date (template month) = Some d ->
  new_Date (template month ++ "-31T23:59:59.999Z")%string = Some d31 ->
  matches [month_entry_31 month; sold_is b] t = sold_between d d31 b t.
Proof.
  intros D D'. unfold matches. cbn [forallb]. rewrite sold_is_eqb.
  unfold month_entry_31, sold_between; simpl. rewrite D, D'; simpl.
  rewrite !andb_true_r. f_equal. f_equal.
  unfold Z.leb. rewrite (Z.compare_antisym (dateOfSale t) d).
  now destruct (dateOfSale t ?= d)%Z.
Qed.

Lemma alldata_answer_between month d d31 w :
  new_Date (template month) = Some d ->
  new_Date (template month ++ "-31T23:59:59.999Z")%string = Some d31 ->
  alldata_answer month w =
  mkResponse 200
    (B_alldata
       (mkAllData []
          (mkStatistics 0
             (List.length (filter (sold_between d d31 true) (docs w)))
             (List.length (filter (sold_between d d31 false) (docs w))))
          empty_chart [])).
Proof.
  intros D D'. unfold alldata_answer, selected.
  rewrite !(filter_ext _ _ (fun t => month_entry_31_between month d d31 _ t D D')).
  unfold bucket_count. rewrite in_month_nil. reflexivity.
Qed.

Lemma alldata_run month w :
  accepted (GET_alldata month) ->
  healthy w ->
  serve (get_alldata month) w =
  (Responded (alldata_answer month w), after_calls (alldata_calls month) w).
Proof.
  intros [Hd Hd'] Hw.
  destruct (new_Date (template month)) as [d|] eqn:D; [|congruence].
  destruct (new_Date (template month ++ "-31T23:59:59.999Z")%string)
    as [d'|] eqn:D'; [|congruence].
  assert (E1 : filter_error [month_entry month] = None)
    by now rewrite (filter_error_month month d).
  assert (E2 : forall b,
             filter_error [month_entry_31 month; sold_is b] = None).
  { intros b. unfold filter_error, month_entry_31; simpl.
    unfold new_Date in *. now rewrite D, D'. }
  unfold serve, get_alldata.
  unfold bind at 1. rewrite find_eq
      by first [reflexivity | solve [exact E1]].
  rewrite (healthy_next w Hw). cbn [window].
  unfold bind at 1. rewrite aggregate_month_eq.
  rewrite healthy_next by (repeat apply healthy_after; exact Hw).
  unfold bind at 1. rewrite countDocuments_eq
      by first [reflexivity | solve [apply E2]].
  rewrite healthy_next by (repeat apply healthy_after; exact Hw).
  unfold bind at 1. rewrite countDocuments_eq
      by first [reflexivity | solve [apply E2]].
  rewrite healthy_next by (repeat apply healthy_after; exact Hw).
  unfold bind at 1.
  change (for_push priceRanges _) with (count_loop month priceRanges).
  rewrite (count_loop_served month d)
    by first [exact D | repeat apply healthy_after; exact Hw].
  unfold bind at 1. rewrite aggregate_month_eq.
  rewrite healthy_next by (repeat apply healthy_after; exact Hw).
  unfold json, ret. cbv beta iota. rewrite !after_calls_app.
  cbn [docs after_calls].
  rewrite !(selected_month [month_entry month] _ month) by (simpl; auto).
  reflexivity.
Qed.

(** X12: the two counts of /alldata are the only figures of the backend
    that see the stored records.  When [new Date(month)] is the time [d]
    and [new Date(month + "-31T23:59:59.999Z")] the time [d31], an answer
    of /alldata has an empty listing, the total 0, ten counts of 0 and no
    category, and counts as sold (as unsold) the stored records that are
    sold (unsold) with a date of sale from [d] on and before [d31].  It
    does answer when the database serves the calls, after its fifteen
    calls. *)
Theorem alldata_counts_between (month : option string) (d d31 : Z)
    (w : World) :
  new_Date (template month) = Some d ->
  new_Date (template month ++ "-31T23:59:59.999Z")%string = Some d31 ->
  let answer :=
    mkResponse 200
      (B_alldata
         (mkAllData []
            (mkStatistics 0
               (List.length (filter (sold_between d d31 true) (docs w)))
               (List.length (filter (sold_between d d31 false) (docs w))))
            empty_chart [])) in
  List.length (alldata_calls month) = 15%nat /\
  (forall r w',
      serve (get_alldata month) w = (Responded r, w') -> r = answer) /\
  (healthy w ->
   serve (get_alldata month) w =
   (Responded answer, after_calls (alldata_calls month) w)).
Proof.
  intros D D' answer. split; [reflexivity|]. split.
  - intros r w' H. apply alldata_inv in H. subst r.
    now apply alldata_answer_between.
  - intros Hw. rewrite alldata_run; [| split; congruence | exact Hw].
    now rewrite (alldata_answer_between month d d31).
Qed.

(** X13: /alldata asks more of the month than the other handlers.  When
    [new Date(month)] is a valid date but
    [new Date(month + "-31T23:59:59.999Z")] is not, and the database
    serves two calls, /alldata ends in an unhandled rejection of the date,
    after its find and its first aggregate have been made. *)
Theorem alldata_rejects_a_longer_month (month : option string) (w : World) :
  new_Date (template month) <> None ->
  new_Date (template month ++ "-31T23:59:59.999Z")%string = None ->
  quiet 2 w ->
  serve (get_alldata month) w =
  (UnhandledRejection (CastError "date"),
   after_calls [c_find [month_entry month] None None;
                c_aggregate [month_entry month] id_null (sum_path f_price)]
     w).
Proof.
  intros Hd D' Hq.
  destruct (new_Date (template month)) as [d|] eqn:D; [|congruence].
  assert (E1 : filter_error [month_entry month] = None)
    by now rewrite (filter_error_month month d).
  assert (E2 : filter_error [month_entry_31 month; sold_is true]
               = Some (CastError "date")).
  { unfold filter_error, month_entry_31; simpl.
    unfold new_Date in *. now rewrite D, D'. }
  unfold serve, get_alldata.
  unfold bind at 1. rewrite find_eq
      by first [reflexivity | solve [exact E1]].
  rewrite (quiet_next _ _ Hq). cbn [window].
  unfold bind at 1. rewrite aggregate_month_eq.
  rewrite (quiet_next 0) by (apply (quiet_after [_]); exact Hq).
  unfold bind at 1. rewrite (rejected_countDocuments _ _ _ E2).
  now rewrite after_calls_app.
Qed.

(** ** More on the price ranges *)

Lemma within_true lo hi p :
  within lo hi p = true <-> (lo <= p)%Q /\ (p < hi)%Q.
Proof.
  unfold within. rewrite andb_true_iff, negb_true_iff, Qle_bool_iff.
  split; intros [H1 H2]; (split; [exact H1|]).
  - destruct (Qlt_le_dec p hi) as [L|L]; [exact L|].
    apply Qle_bool_iff in L. congruence.
  - destruct (Qle_bool hi p) eqn:E; [|reflexivity].
    apply Qle_bool_iff in E. exfalso. now apply (Qlt_not_le p hi).
Qed.

Lemma MAX_VALUE_above_901 : (901 < MAX_VALUE)%Q.
Proof. vm_compute. reflexivity. Qed.

Lemma in_range_bounds r p :
  in_range r p = true <->
  (PriceRange.min r <= p)%Q /\ (p < upper_limit r)%Q.
Proof. apply within_true. Qed.

Lemma buckets_of_ranges :
  map (fun x => (PriceRange.range x, PriceRange.min x, upper_limit x))
    priceRanges = buckets.
Proof. reflexivity. Qed.

Lemma in_one_range_only (p : Q) (r r' : PriceRange.t) :
  In r priceRanges -> In r' priceRanges ->
  in_range r p = true -> in_range r' p = true ->
  r = r'.
Proof.
  intros Hr Hr' H H'.
  apply in_range_bounds in H. apply in_range_bounds in H'.
  destruct H as [Hlo Hhi]. destruct H' as [Hlo' Hhi'].
  simpl in Hr, Hr'.
  repeat (destruct Hr as [<- | Hr]; [|]); try contradiction;
    repeat (destruct Hr' as [<- | Hr']; [|]); try contradiction;
    cbn [PriceRange.min PriceRange.max upper_limit] in *;
    first [reflexivity | exfalso; lra].
Qed.

(** X14: the ten price ranges do not overlap: a price that is in one of
    them is in none of the nine others, so no record is counted by two of
    the ten count queries. *)
Theorem ranges_are_disjoint (p : Q) (r r' : PriceRange.t) :
  In r priceRanges -> In r' priceRanges ->
  in_range r p = true -> r' <> r ->
  in_range r' p = false.
Proof.
  intros Hr Hr' H Hne.
  destruct (in_range r' p) eqn:E; [|reflexivity].
  exfalso. apply Hne. now apply (in_one_range_only p).
Qed.

(** X15: the prices that the ten ranges count.  A price is in one of the
    ten ranges exactly when it is at least 0, below [Number.MAX_VALUE] and
    in none of the gaps from 100 up to 101, from 200 up to 201, and so on
    to from 900 up to 901. *)
Theorem ranges_cover_all_but_the_gaps (p : Q) :
  existsb (fun r => in_range r p) priceRanges = true <->
  (0 <= p)%Q /\ (p < MAX_VALUE)%Q /\ ~ in_gap p.
Proof.
  pose proof MAX_VALUE_above_901 as Hmax.
  split.
  - intros H. apply existsb_exists in H. destruct H as (r & Hr & H).
    assert (G : ~ in_gap p).
    { intros G.
      assert (Hb : In (PriceRange.range r, PriceRange.min r, upper_limit r)
                     buckets).
      { rewrite <- buckets_of_ranges.
        exact (in_map (fun x => (PriceRange.range x, PriceRange.min x,
                                 upper_limit x)) priceRanges r Hr). }
      pose proof (gap_in_no_bucket p _ G Hb) as F. cbn [fst snd] in F.
      unfold in_range in H. congruence. }
    apply in_range_bounds in H. destruct H as [Hlo Hhi].
    simpl in Hr.
    repeat (destruct Hr as [<- | Hr]; [|]); try contradiction;
      cbn [PriceRange.min PriceRange.max upper_limit] in *;
      (split; [lra | split; [lra | exact G]]).
  - intros (H0 & Hm & G).
    assert (Gk : forall k : Z, (1 <= k <= 9)%Z ->
               (inject_Z (100 * k) <= p)%Q ->
               (inject_Z (100 * k + 1) <= p)%Q).
    { intros k Hk Hlo.
      destruct (Qlt_le_dec p (inject_Z (100 * k + 1))) as [L|L]; [|exact L].
      exfalso. apply G. right. exists k. auto. }
    pose proof (Gk 1%Z ltac:(lia)) as G1. pose proof (Gk 2%Z ltac:(lia)) as G2.
    pose proof (Gk 3%Z ltac:(lia)) as G3. pose proof (Gk 4%Z ltac:(lia)) as G4.
    pose proof (Gk 5%Z ltac:(lia)) as G5. pose proof (Gk 6%Z ltac:(lia)) as G6.
    pose proof (Gk 7%Z ltac:(lia)) as G7. pose proof (Gk 8%Z ltac:(lia)) as G8.
    pose proof (Gk 9%Z ltac:(lia)) as G9.
    clear Gk G. cbn in G1, G2, G3, G4, G5, G6, G7, G8, G9.
    apply existsb_exists.
    assert (R : forall r, In r priceRanges ->
               (PriceRange.min r <= p)%Q -> (p < upper_limit r)%Q ->
               exists x, In x priceRanges /\ in_range x p = true).
    { intros r Hr Hlo Hhi. exists r. split; [exact Hr|].
      apply in_range_bounds. now split. }
    unfold inject_Z in *.
    destruct (Qlt_le_dec p 100) as [L1|L1];
      [apply (R (PriceRange.mk "0-100" 0 (Fin 100)));
         [simpl; auto 15
         | cbn [PriceRange.min]; lra
         | cbn [PriceRange.max upper_limit]; lra]|].
    specialize (G1 L1).
    destruct (Qlt_le_dec p 200) as [L2|L2];
      [apply (R (PriceRange.mk "101-200" 101 (Fin 200)));
         [simpl; auto 15
         | cbn [PriceRange.min]; lra
         | cbn [PriceRange.max upper_limit]; lra]|].
    specialize (G2 L2).
    destruct (Qlt_le_dec p 300) as [L3|L3];
      [apply (R (PriceRange.mk "201-300" 201 (Fin 300)));
         [simpl; auto 15
         | cbn [PriceRange.min]; lra
         | cbn [PriceRange.max upper_limit]; lra]|].
    specialize (G3 L3).
    destruct (Qlt_le_dec p 400) as [L4|L4];
      [apply (R (PriceRange.mk "301-400" 301 (Fin 400)));
         [simpl; auto 15
         | cbn [PriceRange.min]; lra
         | cbn [PriceRange.max upper_limit]; lra]|].
    specialize (G4 L4).
    destruct (Qlt_le_dec p 500) as [L5|L5];
      [apply (R (PriceRange.mk "401-500" 401 (Fin 500)));
         [simpl; auto 15
         | cbn [PriceRange.min]; lra
         | cbn [PriceRange.max upper_limit]; lra]|].
    specialize (G5 L5).
    destruct (Qlt_le_dec p 600) as [L6|L6];
      [apply (R (PriceRange.mk "501-600" 501 (Fin 600)));
         [simpl; auto 15
         | cbn [PriceRange.min]; lra
         | cbn [PriceRange.max upper_limit]; lra]|].
    specialize (G6 L6).
    destruct (Qlt_le_dec p 700) as [L7|L7];
      [apply (R (PriceRange.mk "601-700" 601 (Fin 700)));
         [simpl; auto 15
         | cbn [PriceRange.min]; lra
         | cbn [PriceRange.max upper_limit]; lra]|].
    specialize (G7 L7).
    destruct (Qlt_le_dec p 800) as [L8|L8];
      [apply (R (PriceRange.mk "701-800" 701 (Fin 800)));
         [simpl; auto 15
         | cbn [PriceRange.min]; lra
         | cbn [PriceRange.max upper_limit]; lra]|].
    specialize (G8 L8).
    destruct (Qlt_le_dec p 900) as [L9|L9];
      [apply (R (PriceRange.mk "801-900" 801 (Fin 900)));
         [simpl; auto 15
         | cbn [PriceRange.min]; lra
         | cbn [PriceRange.max upper_limit]; lra]|].
    specialize (G9 L9).
    apply (R (PriceRange.mk "901-above" 901 Infinity));
      [simpl; auto 15 | cbn [PriceRange.min]; lra | exact Hm].
Qed.

(** ** More on the month *)

(** X18: /piechart does not check the month.  Its one call is an
    aggregate, whose filter is sent as it is written: whatever the month
    parameter is, also absent or not a date, /piechart answers the empty
    list once the database serves the call. *)
Theorem piechart_answers_any_month (month : option string) (w : World) :
  next_answer w = None ->
  serve (get_piechart month) w =
  (Responded (mkResponse 200 (B_piechart [])),
   after_calls [c_aggregate [month_entry month] (id_path f_category)
                  (sum_const 1)] w).
Proof.
  intros Hn. unfold serve, get_piechart. unfold bind.
  now rewrite aggregate_month_eq, Hn.
Qed.

End Backend.

(** * Concrete runs

    The handlers with the ISO date parser and the literal pattern engine,
    on the sample worlds. *)

Example iso_month : IsoDate.Date_parse_iso "2022-01" = Some 1640995200000%Z.
Proof. reflexivity. Qed.

Example iso_month_end :
  IsoDate.Date_parse_iso "2022-01-31T23:59:59.999Z" = Some 1643673599999%Z.
Proof. reflexivity. Qed.

Example iso_offset :
  IsoDate.Date_parse_iso "2021-11-27T20:29:54+05:30" = Some 1638025194000%Z.
Proof. reflexivity. Qed.

Example iso_undefined : IsoDate.Date_parse_iso (template None) = None.
Proof. reflexivity. Qed.

Example literal_search :
  option_map (fun re => re "A desk lamp") (LiteralRegExp.RegExp "LAMP" "i")
  = Some true.
Proof. reflexivity. Qed.

Example lamp_is_in_no_bucket :
  map (fun r => entry_matches LiteralRegExp.RegExp Sample.lamp (price_entry r))
    priceRanges
  = repeat false 10.
Proof. reflexivity. Qed.

(** C2, at the month 2022-01 and the lamp sold on 2022-01-15: the filter
    of the sold records of the month does not select it. *)
Lemma month_filter_is_empty_witness :
  matches LiteralRegExp.RegExp
    [month_entry IsoDate.Date_parse_iso (Some "2022-01"); sold_is true]
    Sample.lamp = false.
Proof.
  destruct (month_filter_is_empty IsoDate.Date_parse_iso LiteralRegExp.RegExp Sample.library
              (Some "2022-01")) as (_ & _ & H & _).
  apply H. simpl. left. reflexivity.
Defined.

(** C1 fails on the code: for the month 2022-01 and a collection that holds
    one record, sold on 2022-01-15, /statistics answers no sold item and
    /alldata answers one. *)
Lemma alldata_statistics_diverge :
  fst (serve (get_statistics IsoDate.Date_parse_iso LiteralRegExp.RegExp Sample.library
                (Some "2022-01")) Sample.w_lamp)
  = Responded (mkResponse 200 (B_statistics (mkStatistics 0 0 0))) /\
  fst (serve (get_alldata IsoDate.Date_parse_iso LiteralRegExp.RegExp Sample.library
                (Some "2022-01")) Sample.w_lamp)
  = Responded
      (mkResponse 200
         (B_alldata
            (mkAllData []
               (mkStatistics 0 1 0)
               (map (fun b => mkBarEntry (fst (fst b)) 0) buckets)
               []))).
Proof. split; vm_compute; reflexivity. Qed.

(** C3, on the sample shop: the two stored records give way to the two
    items of the remote array. *)
Lemma seed_replaces_the_records_witness :
  exists w',
    serve (seed IsoDate.Date_parse_iso LiteralRegExp.RegExp Sample.library) Sample.w_shop
    = (Responded seeded, w') /\
    Forall2 (document_of IsoDate.Date_parse_iso) Sample.items (docs w').
Proof.
  apply (proj2 (seed_replaces_the_records IsoDate.Date_parse_iso
                  LiteralRegExp.RegExp Sample.library Sample.w_shop)).
  - reflexivity.
  - repeat constructor; vm_compute; discriminate.
  - constructor.
Defined.

(** C4, on the world whose third call fails: /seed answers 500 with the
    message, /statistics leaves the exception unhandled.  On the sample
    shop, a search and a request for the bar chart without the month end
    in unhandled rejections before any call. *)
Lemma only_seed_catches_witness :
  fst (serve (seed IsoDate.Date_parse_iso LiteralRegExp.RegExp Sample.library)
         Sample.w_flaky)
  = Responded (mkResponse 500 (B_error "connection closed")) /\
  fst (serve (app IsoDate.Date_parse_iso LiteralRegExp.RegExp Sample.library
                (GET_statistics (Some "2022-01"))) Sample.w_flaky)
  = UnhandledRejection (mkExn "MongoNetworkError" "connection closed") /\
  (exists e,
      serve (get_transactions IsoDate.Date_parse_iso LiteralRegExp.RegExp
               Sample.library None None (Some "lamp") (Some "2022-01"))
        Sample.w_shop
      = (UnhandledRejection e, Sample.w_shop) /\
      name e = "CastError") /\
  serve (get_barchart IsoDate.Date_parse_iso LiteralRegExp.RegExp
           Sample.library None) Sample.w_shop
  = (UnhandledRejection (CastError "date"), Sample.w_shop).
Proof.
  destruct (only_seed_catches IsoDate.Date_parse_iso LiteralRegExp.RegExp
              Sample.library)
    as (_ & _ & _ & Hseed & Hquery & Hsearch & _ & Hmonth & _).
  split; [|split; [|split]].
  - apply (Hseed Sample.w_flaky Sample.items 2%nat
             (mkExn "MongoNetworkError" "connection closed")).
    + reflexivity.
    + exists []. reflexivity.
    + simpl. lia.
    + repeat constructor; vm_compute; discriminate.
  - apply (Hquery (GET_statistics (Some "2022-01")) Sample.w_flaky 2%nat).
    + reflexivity.
    + vm_compute. discriminate.
    + exists []. reflexivity.
    + simpl. lia.
  - apply (Hsearch None None (Some "lamp") (Some "2022-01") Sample.w_shop).
    reflexivity.
  - apply (Hmonth None Sample.w_shop). reflexivity.
Defined.



(** C7 fails on the code: for the search "lamp" in the month 2022-01, on
    the sample shop, /transactions returns no records: its filter is
    rejected while it is cast, for the clause on the numeric price, the
    request ends in an unhandled rejection and no command is sent.  The
    same request without the search is answered, with an empty page. *)
Lemma transactions_search_never_answers :
  (exists e,
      serve (get_transactions IsoDate.Date_parse_iso LiteralRegExp.RegExp
               Sample.library None None (Some "lamp") (Some "2022-01"))
        Sample.w_shop
      = (UnhandledRejection e, Sample.w_shop) /\
      name e = "CastError") /\
  fst (serve (get_transactions IsoDate.Date_parse_iso LiteralRegExp.RegExp
                Sample.library None None None (Some "2022-01"))
         Sample.w_shop)
  = Responded (mkResponse 200 (B_transactions [])).
Proof.
  split.
  - eexists. split; vm_compute; reflexivity.
  - vm_compute. reflexivity.
Qed.

(** C8, for /alldata on the world whose third call fails. *)
Lemma queries_keep_the_records_witness :
  docs (snd (serve (app IsoDate.Date_parse_iso LiteralRegExp.RegExp Sample.library
                      (GET_alldata (Some "2022-01"))) Sample.w_flaky))
  = [Sample.lamp; Sample.mug].
Proof.
  apply (queries_keep_the_records IsoDate.Date_parse_iso LiteralRegExp.RegExp Sample.library
           (GET_alldata (Some "2022-01")) Sample.w_flaky).
  reflexivity.
Defined.

(** C9 as stated fails on the code: whenever /barchart answers, the sum of
    its counts is not less than the number of records in the month
    filter. *)
Lemma sum_of_counts_is_never_less :
  ~ exists (Date_parse : string -> JsDate)
      (RegExp : string -> string -> option (string -> bool))
      (library : Library)
      (month : option string) (w w' : World) (entries : list BarEntry),
      serve (get_barchart Date_parse RegExp library month) w
      = (Responded (mkResponse 200 (B_barchart entries)), w') /\
      (sum_counts entries
       < List.length (in_month Date_parse RegExp month w))%nat.
Proof.
  intros (Date_parse & RegExp & library & month & w & w' & entries & H & Hlt).
  rewrite in_month_nil in Hlt. simpl in Hlt. lia.
Qed.

(** C9, at the price 100: it is in the first gap, outside 0-100 and
    outside 101-200. *)
Lemma buckets_leave_gaps_witness :
  within 0 100 100 = false /\ within 101 200 100 = false.
Proof.
  assert (G : in_gap 100).
  { right. exists 1%Z. split; [lia|]. split.
    - vm_compute. discriminate.
    - reflexivity. }
  destruct (buckets_leave_gaps IsoDate.Date_parse_iso LiteralRegExp.RegExp Sample.library
              (Some "2022-01") Sample.w_shop) as (H & _).
  split.
  - apply (H 100 ("0-100", 0, 100) G). simpl. auto.
  - apply (H 100 ("101-200", 101, 200) G). simpl. auto 10.
Defined.

(** C10 fails on the code: the search filter is not the filter on title or
    description.  For the search "lamp" the latter passes the cast and
    selects the lamp of the sample shop; the former is rejected for its
    clause on the price, so that a find with it ends in an exception
    before anything is sent, where a find with the latter is served. *)
Lemma search_price_clause_is_rejected :
  filter_error [title_or_description "lamp"] = None /\
  matches LiteralRegExp.RegExp [title_or_description "lamp"] Sample.lamp
  = true /\
  (exists e,
      filter_error [search_entry "lamp"] = Some e /\ name e = "CastError") /\
  (exists e,
      find LiteralRegExp.RegExp Sample.library [search_entry "lamp"] None None
        Sample.w_shop
      = (inl e, Sample.w_shop) /\
      name e = "CastError") /\
  find LiteralRegExp.RegExp Sample.library [title_or_description "lamp"]
    None None Sample.w_shop
  = (inr [Sample.lamp],
     after_calls [c_find [title_or_description "lamp"] None None]
       Sample.w_shop).
Proof.
  split; [reflexivity|]. split; [reflexivity|].
  split; [eexists; split; reflexivity|].
  split; [eexists; split; vm_compute; reflexivity|].
  vm_compute. reflexivity.
Qed.

(** * Further concrete runs *)

(** X1, without network and with a database that fails the first call. *)
Lemma seed_failure_before_the_writes_witness :
  serve (seed IsoDate.Date_parse_iso LiteralRegExp.RegExp Sample.library) Sample.w_lamp
  = (Responded (mkResponse 500 (B_error "Network Error")), Sample.w_lamp) /\
  docs (snd (serve (seed IsoDate.Date_parse_iso LiteralRegExp.RegExp Sample.library) Sample.w_down))
  = [Sample.lamp; Sample.mug].
Proof.
  split.
  - apply (proj1 (seed_failure_before_the_writes IsoDate.Date_parse_iso LiteralRegExp.RegExp Sample.library Sample.w_lamp
                    (mkExn "AxiosError" "Network Error"))).
    reflexivity.
  - apply (proj2 (seed_failure_before_the_writes IsoDate.Date_parse_iso LiteralRegExp.RegExp Sample.library Sample.w_down
                    (mkExn "MongoNetworkError" "connection refused"))
             Sample.items); reflexivity.
Defined.

(** X2, on the world whose third call fails: the delete and the first save
    are served, the second save fails, and the backpack alone is stored. *)
Lemma seed_stops_at_a_failed_save_witness :
  exists w',
    serve (seed IsoDate.Date_parse_iso LiteralRegExp.RegExp Sample.library) Sample.w_flaky
    = (Responded (mkResponse 500 (B_error "connection closed")), w') /\
    Forall2 (document_of IsoDate.Date_parse_iso) (firstn 1 Sample.items) (docs w').
Proof.
  apply (seed_stops_at_a_failed_save IsoDate.Date_parse_iso LiteralRegExp.RegExp Sample.library Sample.w_flaky Sample.items
           1%nat (mkExn "MongoNetworkError" "connection closed")).
  - reflexivity.
  - exists []. reflexivity.
  - simpl. lia.
  - repeat constructor; vm_compute; discriminate.
Defined.

(** X3, on the array whose second item has no readable date. *)
Lemma seed_stops_at_an_undated_item_witness :
  exists w',
    serve (seed IsoDate.Date_parse_iso LiteralRegExp.RegExp Sample.library) Sample.w_undated
    = (Responded
         (mkResponse 500
            (B_error (message (ValidationError Sample.library)))), w') /\
    Forall2 (document_of IsoDate.Date_parse_iso) (firstn 1 Sample.items_undated) (docs w').
Proof.
  apply (seed_stops_at_an_undated_item IsoDate.Date_parse_iso LiteralRegExp.RegExp Sample.library Sample.w_undated
           Sample.items_undated 1%nat
           (mkItem "Bracelet" "Gold plated" 695 "last tuesday" "jewelery" true)).
  - reflexivity.
  - intros i _. now destruct i.
  - reflexivity.
  - reflexivity.
  - repeat constructor; vm_compute; discriminate.
Defined.

(** X4, on the sample shop. *)
Lemma seed_twice_is_seed_once_witness :
  exists w1 w2,
    serve (seed IsoDate.Date_parse_iso LiteralRegExp.RegExp Sample.library) Sample.w_shop = (Responded seeded, w1) /\
    serve (seed IsoDate.Date_parse_iso LiteralRegExp.RegExp Sample.library) w1 = (Responded seeded, w2) /\
    docs w2 = docs w1.
Proof.
  apply (seed_twice_is_seed_once IsoDate.Date_parse_iso LiteralRegExp.RegExp Sample.library Sample.w_shop Sample.items).
  - reflexivity.
  - repeat constructor; vm_compute; discriminate.
  - constructor.
Defined.

(** X5, on the sample shop: one delete and two saves. *)
Lemma seed_calls_on_success_witness :
  exists data,
    remote Sample.w_shop apiUrl = inr data /\
    log (snd (serve (seed IsoDate.Date_parse_iso LiteralRegExp.RegExp Sample.library) Sample.w_shop))
    = log Sample.w_shop ++ seed_calls IsoDate.Date_parse_iso data /\
    upcoming (snd (serve (seed IsoDate.Date_parse_iso LiteralRegExp.RegExp Sample.library) Sample.w_shop))
    = skipn (S (List.length data)) (upcoming Sample.w_shop) /\
    remote (snd (serve (seed IsoDate.Date_parse_iso LiteralRegExp.RegExp Sample.library) Sample.w_shop))
    = remote Sample.w_shop.
Proof.
  apply (seed_calls_on_success IsoDate.Date_parse_iso LiteralRegExp.RegExp Sample.library Sample.w_shop
           (snd (serve (seed IsoDate.Date_parse_iso LiteralRegExp.RegExp Sample.library) Sample.w_shop)) seeded).
  - vm_compute. reflexivity.
  - reflexivity.
Defined.

(** X6, on the sample shop, whose lamp and mug were sold in the month,
    without a search. *)
Lemma transactions_always_empty_witness :
  exists r,
    fst (serve (get_transactions IsoDate.Date_parse_iso LiteralRegExp.RegExp
                  Sample.library None None None (Some "2022-01"))
           Sample.w_shop) = Responded r /\
    r = mkResponse 200 (B_transactions []).
Proof.
  eexists. split.
  - vm_compute. reflexivity.
  - eapply (transactions_always_empty IsoDate.Date_parse_iso
              LiteralRegExp.RegExp Sample.library None None None
              (Some "2022-01") Sample.w_shop).
    vm_compute. reflexivity.
Defined.

(** X7, on the sample shop, which holds a sale of the month. *)
Lemma statistics_always_zero_witness :
  exists r,
    fst (serve (get_statistics IsoDate.Date_parse_iso LiteralRegExp.RegExp Sample.library (Some "2022-01")) Sample.w_shop)
    = Responded r /\
    r = mkResponse 200 (B_statistics (mkStatistics 0 0 0)).
Proof.
  eexists. split.
  - vm_compute. reflexivity.
  - eapply (statistics_always_zero IsoDate.Date_parse_iso LiteralRegExp.RegExp Sample.library (Some "2022-01") Sample.w_shop).
    vm_compute. reflexivity.
Defined.

(** X8, on the sample shop, which holds two categories. *)
Lemma piechart_always_empty_witness :
  serve (get_piechart IsoDate.Date_parse_iso LiteralRegExp.RegExp Sample.library (Some "2022-01")) Sample.w_shop
  = (Responded (mkResponse 200 (B_piechart [])),
     after_calls
       [c_aggregate [month_entry IsoDate.Date_parse_iso (Some "2022-01")] (id_path f_category)
          (sum_const 1)] Sample.w_shop).
Proof.
  apply (proj2 (piechart_always_empty IsoDate.Date_parse_iso LiteralRegExp.RegExp Sample.library (Some "2022-01")
                  Sample.w_shop)).
  - vm_compute. discriminate.
  - reflexivity.
Defined.

(** X9, for /seed without network. *)
Lemma only_seed_answers_500_witness :
  status (mkResponse 500 (B_error "Network Error")) = 200%Z \/
  (GET_seed = GET_seed /\
   exists e, mkResponse 500 (B_error "Network Error")
             = mkResponse 500 (B_error (message e))).
Proof.
  apply (only_seed_answers_500 IsoDate.Date_parse_iso LiteralRegExp.RegExp Sample.library GET_seed Sample.w_lamp
           Sample.w_lamp).
  vm_compute. reflexivity.
Defined.


(** X11, for /alldata. *)
Lemma query_handlers_only_read_witness :
  reads_only is_read (app IsoDate.Date_parse_iso LiteralRegExp.RegExp Sample.library (GET_alldata (Some "2022-01"))).
Proof.
  apply (query_handlers_only_read IsoDate.Date_parse_iso LiteralRegExp.RegExp Sample.library (GET_alldata (Some "2022-01"))).
  reflexivity.
Defined.

(** X12, on the sample shop for the month 2022-01: the lamp is the one
    sold record and the mug the one unsold record of the month. *)
Lemma alldata_counts_between_witness :
  serve (get_alldata IsoDate.Date_parse_iso LiteralRegExp.RegExp Sample.library (Some "2022-01")) Sample.w_shop
  = (Responded
       (mkResponse 200
          (B_alldata (mkAllData [] (mkStatistics 0 1 1) empty_chart []))),
     after_calls (alldata_calls IsoDate.Date_parse_iso (Some "2022-01")) Sample.w_shop).
Proof.
  destruct (alldata_counts_between IsoDate.Date_parse_iso LiteralRegExp.RegExp Sample.library (Some "2022-01")
              1640995200000%Z 1643673599999%Z Sample.w_shop)
    as (_ & _ & H); [reflexivity | reflexivity |].
  apply H. constructor.
Defined.

(** X13, for a month given with its day, which the ISO parser reads and
    which it does not read once the suffix is added. *)
Lemma alldata_rejects_a_longer_month_witness :
  serve (get_alldata IsoDate.Date_parse_iso LiteralRegExp.RegExp Sample.library (Some "2022-01-15")) Sample.w_shop
  = (UnhandledRejection (CastError "date"),
     after_calls
       [c_find [month_entry IsoDate.Date_parse_iso (Some "2022-01-15")] None None;
        c_aggregate [month_entry IsoDate.Date_parse_iso (Some "2022-01-15")] id_null
          (sum_path f_price)] Sample.w_shop).
Proof.
  apply (alldata_rejects_a_longer_month IsoDate.Date_parse_iso LiteralRegExp.RegExp Sample.library (Some "2022-01-15")
           Sample.w_shop).
  - vm_compute. discriminate.
  - reflexivity.
  - intros i _. now destruct i.
Defined.

(** X14, at the price 150: it is in 101-200 and so not in 201-300. *)
Lemma ranges_are_disjoint_witness :
  in_range (PriceRange.mk "201-300" 201 (Fin 300)) 150 = false.
Proof.
  apply (ranges_are_disjoint 150 (PriceRange.mk "101-200" 101 (Fin 200))).
  - simpl. auto.
  - simpl. auto.
  - reflexivity.
  - discriminate.
Defined.

(** X15, at the price 150. *)
Lemma ranges_cover_all_but_the_gaps_witness :
  (0 <= 150)%Q /\ (150 < MAX_VALUE)%Q /\ ~ in_gap 150.
Proof.
  apply (proj1 (ranges_cover_all_but_the_gaps 150)). reflexivity.
Defined.

(** X16, on the sample shop: the bar chart of /alldata is the answer of
    /barchart. *)
Lemma alldata_agrees_elsewhere_witness :
  exists a r,
    fst (serve (get_alldata IsoDate.Date_parse_iso LiteralRegExp.RegExp Sample.library (Some "2022-01")) Sample.w_shop)
    = Responded (mkResponse 200 (B_alldata a)) /\
    fst (serve (get_barchart IsoDate.Date_parse_iso LiteralRegExp.RegExp Sample.library (Some "2022-01")) Sample.w_shop)
    = Responded r /\
    body r = B_barchart (barChart a).
Proof.
  eexists. eexists. split; [vm_compute; reflexivity|].
  split; [vm_compute; reflexivity|].
  eapply (alldata_agrees_elsewhere IsoDate.Date_parse_iso LiteralRegExp.RegExp Sample.library (Some "2022-01") Sample.w_shop);
    vm_compute; reflexivity.
Defined.


(** X18, on the sample shop, for a request without the month. *)
Lemma piechart_answers_any_month_witness :
  serve (get_piechart IsoDate.Date_parse_iso LiteralRegExp.RegExp
           Sample.library None) Sample.w_shop
  = (Responded (mkResponse 200 (B_piechart [])),
     after_calls
       [c_aggregate [month_entry IsoDate.Date_parse_iso None]
          (id_path f_category) (sum_const 1)] Sample.w_shop).
Proof.
  apply (piechart_answers_any_month IsoDate.Date_parse_iso
           LiteralRegExp.RegExp Sample.library None Sample.w_shop).
  reflexivity.
Defined.
